(** * Immune memory service: pattern detection, recipient profiles, resilience score

    A shallow embedding of [src/backend/services/immuneMemoryService.ts].

    - A JavaScript [number] is an IEEE 754 binary64 value: Rocq's primitive
      [float], with the operators of [PrimFloat].
    - A [Date] is its time value, an integral number of milliseconds ([Z]);
      [toISOString()] texts are represented by the time value they print.
    - A [Map<string, V>] is a [gmap string V]; the claims never depend on the
      iteration order of a map.
    - The service object's mutable [memory], the wall clock and [Math.random]
      are threaded through a state monad [M]. *)

From Stdlib Require Import Floats ZArith Uint63 Lia Sorted.
From stdpp Require Import gmap strings list pretty.

Set Warnings "-inexact-float".

(** ** JavaScript numbers *)

Module JS.

(** [Number(z)] for an integral value, as [getTime()] and [length] give:
    exact below 2^53 in magnitude, which covers every time value of a [Date]
    (at most 8.64e15) and every length. *)
Definition Number_of_Z (z : Z) : float :=
  if (z <? 0)%Z then (- of_uint63 (Uint63.of_Z (- z)))%float
  else of_uint63 (Uint63.of_Z z).

Definition Number_of_nat (n : nat) : float := Number_of_Z (Z.of_nat n).

(** [a > b] and [a >= b] are [b < a] and [b <= a]; every comparison with NaN
    is false. *)
Definition gtb (a b : float) : bool := (b <? a)%float.
Definition geb (a b : float) : bool := (b <=? a)%float.

(** [Math.min(a, b)]: NaN when either argument is, and [-0] below [+0]. *)
Definition Math_min (a b : float) : float :=
  if is_nan a || is_nan b then nan
  else if (a <? b)%float then a
  else if (b <? a)%float then b
  else if get_sign a then a else b.

(** [Math.max(a, b)]: NaN when either argument is, and [+0] above [-0]. *)
Definition Math_max (a b : float) : float :=
  if is_nan a || is_nan b then nan
  else if (a <? b)%float then b
  else if (b <? a)%float then a
  else if get_sign a then b else a.

(** [n % d] (ECMAScript Number::remainder): the exact remainder of the
    truncating division, with the sign of the dividend. *)
Definition rem (n d : float) : float :=
  match Prim2SF n, Prim2SF d with
  | S754_nan, _ | _, S754_nan => nan
  | S754_infinity _, _ => nan
  | _, S754_zero _ => nan
  | _, S754_infinity _ => n
  | S754_zero _, _ => n
  | S754_finite sn mn en, S754_finite _ md ed =>
      let e := Z.min en ed in
      let N := (Z.pos mn * 2 ^ (en - e))%Z in
      let D := (Z.pos md * 2 ^ (ed - e))%Z in
      let r := (N mod D)%Z in
      if (r =? 0)%Z then (if sn then neg_zero else zero)
      else SF2Prim (binary_normalize prec emax (if sn then (- r)%Z else r) e false)
  end.

(** [s || d] for an optional string: [undefined] and the empty string are
    falsy. *)
Definition or_string (s : option string) (d : string) : string :=
  match s with
  | Some (String a r) => String a r
  | _ => d
  end.

(** [a.slice(-n)]: the last [n] elements. *)
Definition slice_last {A} (n : nat) (l : list A) : list A :=
  skipn (length l - n) l.

(** [a.reduce((sum, x) => sum + f(x), 0)]. *)
Definition sum_by {A} (f : A → float) (l : list A) : float :=
  fold_left (λ sum x, (sum + f x)%float) l 0%float.

End JS.

(** ** Data model *)

Inductive ThreatLevel := LOW | MEDIUM | HIGH | CRITICAL.

(** [EconomicPatternType] is a union of string literals; the service casts
    the labels of a decision to it without a check, so a pattern type is the
    string itself. *)
Definition EconomicPatternType := string.

(** The fields of [Transaction] the service reads. *)
Record Transaction := {
  tx_id : string;
  tx_timestamp : Z;
  tx_recipient : string;
  tx_amount : float;
  tx_purpose : option string
}.

(** The fields of [ImmuneDecisionResponse] the service reads. *)
Record ImmuneDecisionResponse := {
  threat_level : ThreatLevel;
  patterns_detected : list string;
  resilience_impact : float;
  explanation : string
}.

(** Free text.  A text that interpolates a number is kept as its template and
    the number interpolated; the digits a number prints as are not modelled. *)
Inductive Text :=
  | Plain (s : string)
  | PercentOfTotalSpending (concentration : float)
  | RoundAmount (amount : float)
  | AmountVsEarlierAvg (amount earlierAvg : float).

Record PatternOccurrence := {
  occ_transactionId : string;
  occ_timestamp : Z;
  occ_severity : float;
  occ_context : Text
}.

Record EconomicPattern := {
  pat_id : string;
  pat_type : EconomicPatternType;
  pat_description : string;
  pat_detectedAt : Z;
  pat_occurrences : list PatternOccurrence;
  pat_threatLevel : ThreatLevel;
  pat_isActive : bool;
  pat_learningConfidence : float;
  pat_totalImpact : float
}.

Inductive TimePattern := regular | sporadic | increasing | decreasing.

Record TransactionHistory := {
  count : nat;
  totalAmount : float;
  averageAmount : float;
  purposes : gmap string nat;
  timePattern : TimePattern
}.

Record RiskAssessment := {
  concentrationRisk : float;
  convenienceBias : float;
  valueDecline : float;
  overallRisk : float
}.

Record RecipientProfile := {
  address : string;
  alias : option string;
  transactionHistory : TransactionHistory;
  riskAssessment : RiskAssessment;
  lastInteraction : Z
}.

Record RiskSignal := {
  sig_id : string;
  sig_type : EconomicPatternType;
  sig_severity : ThreatLevel;
  sig_description : string;
  sig_detectedAt : Z;
  relatedTransactions : list string;
  isResolved : bool
}.

Inductive Adjustment := increase | decrease | maintain.
Inductive Outcome := success | failure | pending.

Record AdaptationEvent := {
  ad_id : string;
  ad_timestamp : Z;
  ad_patternType : EconomicPatternType;
  adjustment : Adjustment;
  reason : string;
  outcome : Outcome
}.

Record ImmuneMemory := {
  patterns : gmap string EconomicPattern;
  recipients : gmap string RecipientProfile;
  signals : list RiskSignal;
  adaptations : list AdaptationEvent;
  resilienceScore : float;
  lastUpdated : Z
}.

(** ** The state the service runs in

    [memory] is the field of the service object; [clockReads] and
    [randomDraws] count the readings taken of the wall clock and of
    [Math.random], which are oracles of the environment. *)

Record World := {
  memory : ImmuneMemory;
  clockReads : nat;
  randomDraws : nat
}.

Definition M (A : Type) : Type := World → A * World.

Definition ret {A} (a : A) : M A := λ w, (a, w).

Definition bind {A B} (c : M A) (k : A → M B) : M B :=
  λ w, let (a, w') := c w in k a w'.

Notation "x <- c1 ;; c2" := (bind c1 (λ x, c2))
  (at level 100, c1 at next level, right associativity).
Notation "c1 ;; c2" := (bind c1 (λ _, c2))
  (at level 100, right associativity).

Definition exec {A} (c : M A) (w : World) : World := snd (c w).
Definition eval {A} (c : M A) (w : World) : A := fst (c w).

(** [for (const x of l) body(x)]. *)
Fixpoint for_of {A} (l : list A) (body : A → M unit) : M unit :=
  match l with
  | [] => ret tt
  | x :: l' => body x ;; for_of l' body
  end.

Definition get_memory : M ImmuneMemory := λ w, (memory w, w).

Definition modify_memory (f : ImmuneMemory → ImmuneMemory) : M unit :=
  λ w, (tt, {| memory := f (memory w);
               clockReads := clockReads w;
               randomDraws := randomDraws w |}).

Definition set_patterns (v : gmap string EconomicPattern) (m : ImmuneMemory) :=
  {| patterns := v; recipients := recipients m; signals := signals m;
     adaptations := adaptations m; resilienceScore := resilienceScore m;
     lastUpdated := lastUpdated m |}.

Definition set_recipients (v : gmap string RecipientProfile) (m : ImmuneMemory) :=
  {| patterns := patterns m; recipients := v; signals := signals m;
     adaptations := adaptations m; resilienceScore := resilienceScore m;
     lastUpdated := lastUpdated m |}.

Definition set_signals (v : list RiskSignal) (m : ImmuneMemory) :=
  {| patterns := patterns m; recipients := recipients m; signals := v;
     adaptations := adaptations m; resilienceScore := resilienceScore m;
     lastUpdated := lastUpdated m |}.

Definition set_adaptations (v : list AdaptationEvent) (m : ImmuneMemory) :=
  {| patterns := patterns m; recipients := recipients m; signals := signals m;
     adaptations := v; resilienceScore := resilienceScore m;
     lastUpdated := lastUpdated m |}.

Definition set_resilienceScore (v : float) (m : ImmuneMemory) :=
  {| patterns := patterns m; recipients := recipients m; signals := signals m;
     adaptations := adaptations m; resilienceScore := v;
     lastUpdated := lastUpdated m |}.

Definition set_lastUpdated (v : Z) (m : ImmuneMemory) :=
  {| patterns := patterns m; recipients := recipients m; signals := signals m;
     adaptations := adaptations m; resilienceScore := resilienceScore m;
     lastUpdated := v |}.

Definition set_learningConfidence (v : float) (p : EconomicPattern) :=
  {| pat_id := pat_id p; pat_type := pat_type p;
     pat_description := pat_description p; pat_detectedAt := pat_detectedAt p;
     pat_occurrences := pat_occurrences p; pat_threatLevel := pat_threatLevel p;
     pat_isActive := pat_isActive p; pat_learningConfidence := v;
     pat_totalImpact := pat_totalImpact p |}.

Definition push_occurrence (o : PatternOccurrence) (p : EconomicPattern) :=
  {| pat_id := pat_id p; pat_type := pat_type p;
     pat_description := pat_description p; pat_detectedAt := pat_detectedAt p;
     pat_occurrences := pat_occurrences p ++ [o];
     pat_threatLevel := pat_threatLevel p;
     pat_isActive := pat_isActive p;
     pat_learningConfidence := pat_learningConfidence p;
     pat_totalImpact := pat_totalImpact p |}.

(** ** Helpers of the embedding *)

(** [a.every((x, i) => f(x, i))]. *)
Fixpoint every_from {A} (f : A → nat → bool) (i : nat) (l : list A) : bool :=
  match l with
  | [] => true
  | x :: l' => f x i && every_from f (S i) l'
  end.

Definition every {A} (f : A → nat → bool) (l : list A) : bool :=
  every_from f 0 l.

(** [a.sort((a, b) => a.timestamp.getTime() - b.timestamp.getTime())]: the
    sort is stable, and on time values the sign of the difference is the
    order of the integers. *)
Fixpoint insert_by_timestamp (t : Transaction) (l : list Transaction) :=
  match l with
  | [] => [t]
  | u :: l' =>
      if (tx_timestamp t <? tx_timestamp u)%Z then t :: u :: l'
      else u :: insert_by_timestamp t l'
  end.

Definition sort_by_timestamp (l : list Transaction) : list Transaction :=
  fold_left (λ sorted t, insert_by_timestamp t sorted) l [].

(** What [transactions[i].timestamp.getTime()] and [amounts[i]] read; the
    loops of [analyzeTimePattern] never index out of range. *)
Definition time_at (l : list Transaction) (i : nat) : float :=
  match l !! i with
  | Some t => JS.Number_of_Z (tx_timestamp t)
  | None => nan
  end.

Definition amount_at (amounts : list float) (i : nat) : float :=
  match amounts !! i with Some a => a | None => nan end.

Definition ThreatLevel_text (t : ThreatLevel) : string :=
  match t with
  | LOW => "LOW" | MEDIUM => "MEDIUM" | HIGH => "HIGH" | CRITICAL => "CRITICAL"
  end.

Definition same_recipient (a b : Transaction) : bool :=
  String.eqb (tx_recipient a) (tx_recipient b).

(** The severity [recordPatternDetection] derives from a threat level. *)
Definition severity_of (threatLevel : ThreatLevel) : float :=
  match threatLevel with
  | CRITICAL => 1.0 | HIGH => 0.8 | MEDIUM => 0.6 | LOW => 0.4
  end.

(** The memory the constructor builds, at clock reading [now]. *)
Definition initial_memory (now : Z) : ImmuneMemory :=
  {| patterns := ∅; recipients := ∅; signals := []; adaptations := [];
     resilienceScore := 75; lastUpdated := now |}.

(** ** The service *)

Section Service.

(** [Math.pow] is implementation-approximated in ECMAScript, so it stays a
    parameter; [clock k] is the [k]-th reading of the wall clock and
    [random36 k] the [k]-th [Math.random().toString(36).substr(2, 9)]. *)
Variable Math_pow : float → float → float.
Variable clock : nat → Z.
Variable random36 : nat → string.

Definition Date_now : M Z :=
  λ w, (clock (clockReads w),
        {| memory := memory w;
           clockReads := S (clockReads w);
           randomDraws := randomDraws w |}).

Definition Math_random36 : M string :=
  λ w, (random36 (randomDraws w),
        {| memory := memory w;
           clockReads := clockReads w;
           randomDraws := S (randomDraws w) |}).

(** *** Recipient profiles *)

Definition analyzeTimePattern (transactions : list Transaction) : TimePattern :=
  if (length transactions <? 3)%nat then sporadic
  else
    let intervals :=
      map (λ i, (time_at transactions i - time_at transactions (i - 1))%float)
          (seq 1 (length transactions - 1)) in
    let avgInterval :=
      (JS.sum_by (λ interval, interval) intervals
       / JS.Number_of_nat (length intervals))%float in
    let variance :=
      (JS.sum_by (λ interval, Math_pow (interval - avgInterval) 2) intervals
       / JS.Number_of_nat (length intervals))%float in
    if (variance <? avgInterval * 0.3)%float then regular
    else
      let amounts := map tx_amount transactions in
      let isIncreasing :=
        every (λ amount i, JS.geb amount (amount_at amounts i)) (drop 1 amounts) in
      let isDecreasing :=
        every (λ amount i, (amount <=? amount_at amounts i)%float) (drop 1 amounts) in
      if isIncreasing then increasing
      else if isDecreasing then decreasing
      else sporadic.

Definition calculateConcentrationRisk
    (ledger : list Transaction) (recipientTotal : float) : float :=
  let totalSpending := JS.sum_by tx_amount ledger in
  if (totalSpending =? 0)%float then 0%float
  else
    let concentration := (recipientTotal / totalSpending)%float in
    JS.Math_min 1.0 (concentration * 2).

Definition is_round_amount (t : Transaction) : bool :=
  (JS.rem (tx_amount t) 10 =? 0)%float && JS.gtb (tx_amount t) 50.

Definition calculateConvenienceBias (transactions : list Transaction) : float :=
  let roundAmounts := List.filter is_round_amount transactions in
  (JS.Number_of_nat (length roundAmounts)
   / JS.Number_of_nat (length transactions))%float.

Definition calculateValueDecline (transactions : list Transaction) : float :=
  if (length transactions <? 3)%nat then 0%float
  else
    let amounts := map tx_amount transactions in
    let recentAvg :=
      (JS.sum_by (λ amt, amt) (JS.slice_last 3 amounts) / 3)%float in
    let earlierAvg :=
      (JS.sum_by (λ amt, amt) (take 3 amounts) / 3)%float in
    if JS.gtb recentAvg (earlierAvg * 1.2) then 0.6%float else 0%float.

Definition count_purpose (purposes : gmap string nat) (t : Transaction) :=
  match tx_purpose t with
  | Some (String a r) =>
      <[String a r := S (default 0%nat (purposes !! String a r))]> purposes
  | _ => purposes
  end.

Definition buildRecipientProfile (ledger : list Transaction)
    (address : string) (transactions : list Transaction) : M RecipientProfile :=
  let totalAmount := JS.sum_by tx_amount transactions in
  let purposes := fold_left count_purpose transactions ∅ in
  let timePattern := analyzeTimePattern transactions in
  lastInteraction <-
    match last transactions with
    | Some t => ret (tx_timestamp t)
    | None => Date_now
    end ;;
  ret {| address := address;
         alias := None;
         transactionHistory :=
           {| count := length transactions;
              totalAmount := totalAmount;
              averageAmount :=
                (totalAmount / JS.Number_of_nat (length transactions))%float;
              purposes := purposes;
              timePattern := timePattern |};
         riskAssessment :=
           {| concentrationRisk := calculateConcentrationRisk ledger totalAmount;
              convenienceBias := calculateConvenienceBias transactions;
              valueDecline := calculateValueDecline transactions;
              overallRisk := 0 |};
         lastInteraction := lastInteraction |}.

(** [ledger] is [dataStore.getTransactions()] at the time of the call. *)
Definition updateRecipientProfile
    (ledger : list Transaction) (transaction : Transaction) : M unit :=
  m <- get_memory ;;
  let existing := recipients m !! tx_recipient transaction in
  let allRecipientTxs := List.filter (λ t, same_recipient t transaction) ledger in
  profile <-
    match existing with
    | Some p => ret p
    | None => buildRecipientProfile ledger (tx_recipient transaction) allRecipientTxs
    end ;;
  modify_memory (λ m, set_recipients
    (<[tx_recipient transaction := profile]> (recipients m)) m).

Definition getRecipientProfile
    (ledger : list Transaction) (address : string) : M (option RecipientProfile) :=
  m <- get_memory ;;
  match recipients m !! address with
  | Some existing => ret (Some existing)
  | None =>
      let transactions := List.filter (λ t, String.eqb (tx_recipient t) address) ledger in
      if (length transactions =? 0)%nat then ret None
      else
        profile <- buildRecipientProfile ledger address transactions ;;
        modify_memory (λ m, set_recipients (<[address := profile]> (recipients m)) m) ;;
        ret (Some profile)
  end.

(** *** The four detectors *)

Definition detectRecurringMicroCosts
    (newTransaction : Transaction) (allTransactions : list Transaction)
    : M (option EconomicPattern) :=
  if JS.geb (tx_amount newTransaction) 50 then ret None
  else
    let recipientTxs :=
      List.filter (λ t, same_recipient t newTransaction && (tx_amount t <? 50)%float)
                  allTransactions in
    if (length recipientTxs <? 3)%nat then ret None
    else
      let totalImpact := JS.sum_by tx_amount recipientTxs in
      now <- Date_now ;;
      detectedAt <- Date_now ;;
      ret (Some
        {| pat_id := "pattern-micro-" +:+ pretty now;
           pat_type := "recurring_micro_costs";
           pat_description :=
             "Recurring small payments to " +:+ tx_recipient newTransaction;
           pat_detectedAt := detectedAt;
           pat_occurrences :=
             map (λ t, {| occ_transactionId := tx_id t;
                          occ_timestamp := tx_timestamp t;
                          occ_severity := (tx_amount t / 50)%float;
                          occ_context :=
                            Plain (JS.or_string (tx_purpose t) "No purpose specified") |})
                 recipientTxs;
           pat_threatLevel :=
             if JS.gtb totalImpact 200 then HIGH
             else if JS.gtb totalImpact 100 then MEDIUM else LOW;
           pat_isActive := true;
           pat_learningConfidence := 0.7;
           pat_totalImpact := totalImpact |}).

Definition detectVendorConcentration
    (newTransaction : Transaction) (allTransactions : list Transaction)
    : M (option EconomicPattern) :=
  let recipientTotal :=
    JS.sum_by tx_amount
      (List.filter (λ t, same_recipient t newTransaction) allTransactions) in
  let totalSpending := JS.sum_by tx_amount allTransactions in
  if (totalSpending =? 0)%float then ret None
  else
    let concentration := (recipientTotal / totalSpending)%float in
    if (concentration <? 0.3)%float then ret None
    else
      now <- Date_now ;;
      detectedAt <- Date_now ;;
      timestamp <- Date_now ;;
      ret (Some
        {| pat_id := "pattern-concentration-" +:+ pretty now;
           pat_type := "vendor_concentration";
           pat_description :=
             "High concentration of spending with " +:+ tx_recipient newTransaction;
           pat_detectedAt := detectedAt;
           pat_occurrences :=
             [ {| occ_transactionId := tx_id newTransaction;
                  occ_timestamp := timestamp;
                  occ_severity := concentration;
                  occ_context := PercentOfTotalSpending concentration |} ];
           pat_threatLevel :=
             if JS.gtb concentration 0.6 then HIGH
             else if JS.gtb concentration 0.4 then MEDIUM else LOW;
           pat_isActive := true;
           pat_learningConfidence := 0.8;
           pat_totalImpact := recipientTotal |}).

Definition detectConvenienceBias
    (newTransaction : Transaction) (allTransactions : list Transaction)
    : M (option EconomicPattern) :=
  if negb (JS.rem (tx_amount newTransaction) 10 =? 0)%float
     || (tx_amount newTransaction <=? 50)%float then ret None
  else
    let roundAmountTxs := List.filter is_round_amount allTransactions in
    let biasRatio :=
      (JS.Number_of_nat (length roundAmountTxs)
       / JS.Number_of_nat (length allTransactions))%float in
    if (biasRatio <? 0.6)%float then ret None
    else
      now <- Date_now ;;
      detectedAt <- Date_now ;;
      ret (Some
        {| pat_id := "pattern-convenience-" +:+ pretty now;
           pat_type := "convenience_bias";
           pat_description :=
             "Frequent use of round payment amounts suggesting convenience bias";
           pat_detectedAt := detectedAt;
           pat_occurrences :=
             map (λ t, {| occ_transactionId := tx_id t;
                          occ_timestamp := tx_timestamp t;
                          occ_severity := biasRatio;
                          occ_context := RoundAmount (tx_amount t) |})
                 (JS.slice_last 5 roundAmountTxs);
           pat_threatLevel := if JS.gtb biasRatio 0.8 then MEDIUM else LOW;
           pat_isActive := true;
           pat_learningConfidence := 0.6;
           pat_totalImpact :=
             JS.sum_by (λ t, (tx_amount t * 0.1)%float) roundAmountTxs |}).

Definition detectDecliningValue
    (newTransaction : Transaction) (allTransactions : list Transaction)
    : M (option EconomicPattern) :=
  let recipientTxs :=
    sort_by_timestamp
      (List.filter (λ t, same_recipient t newTransaction) allTransactions) in
  if (length recipientTxs <? 4)%nat then ret None
  else
    let recentAvg :=
      (JS.sum_by tx_amount (JS.slice_last 2 recipientTxs) / 2)%float in
    let earlierAvg :=
      (JS.sum_by tx_amount (take 2 recipientTxs) / 2)%float in
    if (recentAvg <=? earlierAvg * 1.2)%float then ret None
    else
      now <- Date_now ;;
      detectedAt <- Date_now ;;
      ret (Some
        {| pat_id := "pattern-declining-" +:+ pretty now;
           pat_type := "declining_value";
           pat_description :=
             "Increasing payments to " +:+ tx_recipient newTransaction
             +:+ " may indicate declining value";
           pat_detectedAt := detectedAt;
           pat_occurrences :=
             map (λ t, {| occ_transactionId := tx_id t;
                          occ_timestamp := tx_timestamp t;
                          occ_severity := (tx_amount t / earlierAvg)%float;
                          occ_context :=
                            AmountVsEarlierAvg (tx_amount t) earlierAvg |})
                 (JS.slice_last 3 recipientTxs);
           pat_threatLevel :=
             if JS.gtb recentAvg (earlierAvg * 1.5) then HIGH else MEDIUM;
           pat_isActive := true;
           pat_learningConfidence := 0.5;
           pat_totalImpact := (recentAvg - earlierAvg)%float |}).

Definition push_if_detected
    (detector : M (option EconomicPattern)) (detectedPatterns : list EconomicPattern)
    : M (list EconomicPattern) :=
  found <- detector ;;
  ret (match found with
       | Some p => detectedPatterns ++ [p]
       | None => detectedPatterns
       end).

Definition detectPatterns
    (ledger : list Transaction) (newTransaction : Transaction)
    : M (list EconomicPattern) :=
  let allTransactions := ledger in
  d1 <- push_if_detected (detectRecurringMicroCosts newTransaction allTransactions) [] ;;
  d2 <- push_if_detected (detectVendorConcentration newTransaction allTransactions) d1 ;;
  d3 <- push_if_detected (detectConvenienceBias newTransaction allTransactions) d2 ;;
  push_if_detected (detectDecliningValue newTransaction allTransactions) d3.

(** *** The memory store *)

Definition new_occurrence
    (transaction : Transaction) (threatLevel : ThreatLevel) : PatternOccurrence :=
  {| occ_transactionId := tx_id transaction;
     occ_timestamp := tx_timestamp transaction;
     occ_severity := severity_of threatLevel;
     occ_context := Plain (JS.or_string (tx_purpose transaction) "No context") |}.

Definition recordPatternDetection
    (patternType : EconomicPatternType) (transaction : Transaction)
    (threatLevel : ThreatLevel) : M unit :=
  now <- Date_now ;;
  let patternId :=
    patternType +:+ "-" +:+ tx_recipient transaction +:+ "-" +:+ pretty now in
  m <- get_memory ;;
  match patterns m !! patternId with
  | Some existingPattern =>
      modify_memory (λ m, set_patterns
        (<[patternId := push_occurrence (new_occurrence transaction threatLevel)
                                        existingPattern]> (patterns m)) m)
  | None =>
      detectedAt <- Date_now ;;
      let pattern :=
        {| pat_id := patternId;
           pat_type := patternType;
           pat_description :=
             patternType +:+ " detected for " +:+ tx_recipient transaction;
           pat_detectedAt := detectedAt;
           pat_occurrences := [new_occurrence transaction threatLevel];
           pat_threatLevel := threatLevel;
           pat_isActive := true;
           pat_learningConfidence := 0.5;
           pat_totalImpact := tx_amount transaction |} in
      modify_memory (λ m, set_patterns (<[patternId := pattern]> (patterns m)) m)
  end.

Definition updateResilienceScore (impact : float) : M unit :=
  modify_memory (λ m, set_resilienceScore
    (JS.Math_max 0 (JS.Math_min 100 (resilienceScore m + impact))) m).

Definition generateRiskSignal
    (transaction : Transaction) (decision : ImmuneDecisionResponse) : M unit :=
  now <- Date_now ;;
  rnd <- Math_random36 ;;
  detectedAt <- Date_now ;;
  let signal :=
    {| sig_id := "signal-" +:+ pretty now +:+ "-" +:+ rnd;
       sig_type :=
         JS.or_string (head (patterns_detected decision)) "recurring_micro_costs";
       sig_severity := threat_level decision;
       sig_description :=
         ThreatLevel_text (threat_level decision) +:+ " threat detected: "
         +:+ explanation decision;
       sig_detectedAt := detectedAt;
       relatedTransactions := [tx_id transaction];
       isResolved := false |} in
  modify_memory (λ m, set_signals (signals m ++ [signal]) m).

Definition updateMemoryFromTransaction
    (ledger : list Transaction)
    (transaction : Transaction) (decision : ImmuneDecisionResponse) : M unit :=
  updateRecipientProfile ledger transaction ;;
  for_of (patterns_detected decision) (λ patternType,
    recordPatternDetection patternType transaction (threat_level decision)) ;;
  updateResilienceScore (resilience_impact decision) ;;
  match threat_level decision with
  | HIGH | CRITICAL => generateRiskSignal transaction decision
  | _ => ret tt
  end ;;
  now <- Date_now ;;
  modify_memory (set_lastUpdated now).

Definition calculateResilienceScore : M float :=
  m <- get_memory ;; ret (resilienceScore m).

Definition getActiveRiskSignals : M (list RiskSignal) :=
  m <- get_memory ;;
  ret (List.filter (λ signal, negb (isResolved signal)) (signals m)).

Definition adapt_confidence (outcome : Outcome) (pattern : EconomicPattern) :=
  match outcome with
  | success =>
      set_learningConfidence
        (JS.Math_min 1.0 (pat_learningConfidence pattern + 0.1)) pattern
  | _ =>
      set_learningConfidence
        (JS.Math_max 0.1 (pat_learningConfidence pattern - 0.1)) pattern
  end.

(** [outcome] is ['success' | 'failure']; the code tests it against
    ['success'] only. *)
Definition adaptSensitivity
    (patternType : EconomicPatternType) (outcome : Outcome) : M unit :=
  now <- Date_now ;;
  rnd <- Math_random36 ;;
  timestamp <- Date_now ;;
  let adaptation :=
    {| ad_id := "adapt-" +:+ pretty now +:+ "-" +:+ rnd;
       ad_timestamp := timestamp;
       ad_patternType := patternType;
       adjustment := match outcome with success => maintain | _ => increase end;
       reason :=
         match outcome with
         | success => "Pattern detection was accurate"
         | _ => "Pattern detection needs improvement"
         end;
       outcome := outcome |} in
  modify_memory (λ m, set_adaptations (adaptations m ++ [adaptation]) m) ;;
  modify_memory (λ m, set_patterns
    ((λ pattern,
        if String.eqb (pat_type pattern) patternType
        then adapt_confidence outcome pattern
        else pattern) <$> patterns m) m).

End Service.

(** The world a freshly constructed service starts in: the constructor has
    read the clock once. *)
Definition new_service (clock : nat → Z) : World :=
  {| memory := initial_memory (clock 0%nat); clockReads := 1; randomDraws := 0 |}.

(** ** Properties and runs the theorems speak of *)

(** The range of the resilience score. *)
Definition in_0_100 (x : float) : bool := (0 <=? x)%float && (x <=? 100)%float.

(** The range of a severity. *)
Definition in_0_1 (x : float) : bool := (0 <=? x)%float && (x <=? 1)%float.

(** One call of [updateMemoryFromTransaction]: the ledger at the time of the
    call, the transaction and the decision. *)
Definition Call : Type := list Transaction * Transaction * ImmuneDecisionResponse.

Definition call_decision (c : Call) : ImmuneDecisionResponse := snd c.

Definition run_calls (Math_pow : float → float → float) (clock : nat → Z)
    (random36 : nat → string) (calls : list Call) : M unit :=
  for_of calls (λ c,
    updateMemoryFromTransaction Math_pow clock random36 (fst (fst c)) (snd (fst c)) (snd c)).

(** The threat levels at which [updateMemoryFromTransaction] generates a
    risk signal. *)
Definition raises_signal (t : ThreatLevel) : bool :=
  match t with HIGH | CRITICAL => true | _ => false end.

(** The score [updateResilienceScore] stores. *)
Definition clamp_score (score impact : float) : float :=
  JS.Math_max 0 (JS.Math_min 100 (score + impact)).

(** The share of total historical spend that [detectVendorConcentration]
    computes for the counterparty of a transaction. *)
Definition spend_share (t : Transaction) (allTransactions : list Transaction) : float :=
  (JS.sum_by tx_amount (List.filter (λ u, same_recipient u t) allTransactions)
   / JS.sum_by tx_amount allTransactions)%float.

(** The transactions to the counterparty of [t] that are below the
    micro-cost threshold, and their cumulative total. *)
Definition micro_costs (t : Transaction) (allTransactions : list Transaction) :=
  List.filter (λ u, same_recipient u t && (tx_amount u <? 50)%float) allTransactions.

Definition micro_cost_total (t : Transaction) (allTransactions : list Transaction) :=
  JS.sum_by tx_amount (micro_costs t allTransactions).

(** *** Cadence classification, as the specification words it *)

(** The inter-transaction time deltas. *)
Fixpoint time_deltas (l : list Transaction) : list float :=
  match l with
  | a :: (b :: _) as rest =>
      (JS.Number_of_Z (tx_timestamp b) - JS.Number_of_Z (tx_timestamp a))%float
      :: time_deltas rest
  | _ => []
  end.

Definition mean (xs : list float) : float :=
  (JS.sum_by (λ x, x) xs / JS.Number_of_nat (length xs))%float.

Definition variance (Math_pow : float → float → float) (xs : list float) : float :=
  (JS.sum_by (λ x, Math_pow (x - mean xs) 2) xs / JS.Number_of_nat (length xs))%float.

Fixpoint non_decreasing (xs : list float) : bool :=
  match xs with
  | a :: (b :: _) as rest => (a <=? b)%float && non_decreasing rest
  | _ => true
  end.

Fixpoint non_increasing (xs : list float) : bool :=
  match xs with
  | a :: (b :: _) as rest => (b <=? a)%float && non_increasing rest
  | _ => true
  end.

Definition cadence_per_spec (Math_pow : float → float → float)
    (transactions : list Transaction) : TimePattern :=
  if (length transactions <? 3)%nat then sporadic
  else
    let deltas := time_deltas transactions in
    if (variance Math_pow deltas <? mean deltas * 0.3)%float then regular
    else if non_decreasing (map tx_amount transactions) then increasing
    else if non_increasing (map tx_amount transactions) then decreasing
    else sporadic.

(** *** The steps of [adaptSensitivity] on a learning confidence *)

Definition step_up (confidence : float) : float :=
  JS.Math_min 1.0 (confidence + 0.1).

Definition step_down (confidence : float) : float :=
  JS.Math_max 0.1 (confidence - 0.1).

Definition confidence_at (w : World) (patternId : string) : option float :=
  pat_learningConfidence <$> patterns (memory w) !! patternId.

(** *** Concrete runs *)

(** A [Math.pow] for the concrete runs; the service only ever passes the
    exponent 2. *)
Definition pow_square (x _ : float) : float := (x * x)%float.

Definition fixed_random36 (_ : nat) : string := "k3j9x0q2m".

(** A clock that reads 1000 up to its fourth reading and 2000 from then on:
    the constructor and a first call read it four times. *)
Definition two_call_clock (k : nat) : Z := if (k <? 4)%nat then 1000 else 2000.

Definition frozen_clock (_ : nat) : Z := 1000.

Definition payment (id : string) (time : Z) (recipient : string) (amount : float)
    : Transaction :=
  {| tx_id := id; tx_timestamp := time; tx_recipient := recipient;
     tx_amount := amount; tx_purpose := None |}.

Definition tx1 := payment "tx-1" 1 "0xA" 10.
Definition tx2 := payment "tx-2" 2 "0xA" 20.
Definition tx3 := payment "tx-3" 3 "0xA" 20.
Definition tx0 := payment "tx-0" 0 "0xA" 10.

Definition concentration_decision : ImmuneDecisionResponse :=
  {| threat_level := LOW; patterns_detected := ["vendor_concentration"];
     resilience_impact := 0; explanation := "repeat vendor" |}.

Definition high_decision_without_patterns : ImmuneDecisionResponse :=
  {| threat_level := HIGH; patterns_detected := [];
     resilience_impact := (-5); explanation := "unusual payment" |}.

(** Two calls for two transactions to the same counterparty, each decision
    listing the same pattern type. *)
Definition after_first_call : World :=
  exec (updateMemoryFromTransaction pow_square two_call_clock fixed_random36
          [tx1] tx1 concentration_decision)
       (new_service two_call_clock).

Definition after_second_call : World :=
  exec (updateMemoryFromTransaction pow_square two_call_clock fixed_random36
          [tx1; tx2] tx2 concentration_decision)
       after_first_call.

(** A ledger in which the counterparty 0xA holds exactly 30 of 100 units. *)
Definition tx_a := payment "tx-a" 1 "0xA" 30.
Definition tx_b := payment "tx-b" 2 "0xB" 70.
Definition ledger_30_of_100 : list Transaction := [tx_a; tx_b].

(** Rising payments to one counterparty. *)
Definition rising_ledger : list Transaction := [tx0; tx1; tx2; tx3].

(** Three earlier micro-payments to one counterparty, and a new one of
    49.99. *)
Definition micro_ledger : list Transaction :=
  [payment "m-1" 1 "0xC" 15; payment "m-2" 2 "0xC" 15; payment "m-3" 3 "0xC" 15].

Definition micro_payment := payment "m-4" 4 "0xC" 49.99.

(** A memory holding one pattern, as [recordPatternDetection] creates it,
    with learning confidence 0.5. *)
Definition one_pattern_world : World :=
  exec (recordPatternDetection frozen_clock "convenience_bias" tx1 LOW)
       (new_service frozen_clock).

Definition adapt_once (outcome : Outcome) (w : World) : World :=
  exec (adaptSensitivity frozen_clock fixed_random36 "convenience_bias" outcome) w.

Definition adapt_three_times (outcome : Outcome) (w : World) : World :=
  adapt_once outcome (adapt_once outcome (adapt_once outcome w)).

(** Deltas far outside the conventional range [-10, 10], in both
    directions. *)
Definition decision_with_impact (impact : float) : ImmuneDecisionResponse :=
  {| threat_level := LOW; patterns_detected := [];
     resilience_impact := impact; explanation := "routine payment" |}.

Definition wild_calls : list Call :=
  [ ([tx1], tx1, decision_with_impact 1e300);
    ([tx1], tx1, decision_with_impact (-250));
    ([tx1], tx1, decision_with_impact infinity);
    ([tx1], tx1, decision_with_impact 0.5) ].

(** Reading the memory leaves the world as it is. *)
Ltac read_memory :=
  repeat match goal with
         | |- context [exec get_memory ?w] => change (exec get_memory w) with w
         | |- context [eval get_memory ?w] => change (eval get_memory w) with (memory w)
         end.

(** ** The states a service goes through

    The worlds reached from a freshly constructed service by calls of its
    public methods that write to the memory or read the clock. *)

Inductive Reachable (Math_pow : float → float → float) (clock : nat → Z)
    (random36 : nat → string) : World → Prop :=
  | reach_new : Reachable Math_pow clock random36 (new_service clock)
  | reach_update ledger transaction decision w :
      Reachable Math_pow clock random36 w →
      Reachable Math_pow clock random36
        (exec (updateMemoryFromTransaction Math_pow clock random36
                 ledger transaction decision) w)
  | reach_adapt patternType outcome w :
      Reachable Math_pow clock random36 w →
      Reachable Math_pow clock random36
        (exec (adaptSensitivity clock random36 patternType outcome) w)
  | reach_profile ledger address w :
      Reachable Math_pow clock random36 w →
      Reachable Math_pow clock random36
        (exec (getRecipientProfile Math_pow clock ledger address) w)
  | reach_detect ledger newTransaction w :
      Reachable Math_pow clock random36 w →
      Reachable Math_pow clock random36
        (exec (detectPatterns clock ledger newTransaction) w).

(** The learning confidences that the steps of [adaptSensitivity] produce
    from 0.5, the confidence of a pattern [recordPatternDetection] creates:
    the closure of 0.5 under [step_up] and [step_down], computed. *)
Definition add_confidence (c : float) (seen : list float) : list float :=
  if existsb (Leibniz.eqb c) seen then seen else seen ++ [c].

Definition grow_confidences (seen : list float) : list float :=
  fold_left (λ acc c, add_confidence (step_down c) (add_confidence (step_up c) acc))
            seen seen.

Definition known_confidences : list float :=
  Eval vm_compute in Nat.iter 32 grow_confidences [0.5%float].

Definition known_confidence (c : float) : bool :=
  existsb (Leibniz.eqb c) known_confidences.

(** What holds of a stored pattern, of a stored signal and of the memory. *)
Definition pattern_ok (patternId : string) (p : EconomicPattern) : Prop :=
  pat_id p = patternId
  ∧ pat_isActive p = true
  ∧ known_confidence (pat_learningConfidence p) = true
  ∧ (∃ first rest, pat_occurrences p = first :: rest
                 ∧ occ_severity first = severity_of (pat_threatLevel p))
  ∧ Forall (λ o, ∃ t, occ_severity o = severity_of t) (pat_occurrences p).

Definition signal_ok (s : RiskSignal) : Prop :=
  isResolved s = false
  ∧ raises_signal (sig_severity s) = true
  ∧ length (relatedTransactions s) = 1
  ∧ sig_type s ≠ EmptyString.

Definition memory_ok (m : ImmuneMemory) : Prop :=
  map_Forall pattern_ok (patterns m) ∧ Forall signal_ok (signals m).

(** A pattern with further occurrences pushed, every other field kept. *)
Definition append_occurrences (more : list PatternOccurrence) (p : EconomicPattern) :=
  {| pat_id := pat_id p; pat_type := pat_type p;
     pat_description := pat_description p; pat_detectedAt := pat_detectedAt p;
     pat_occurrences := pat_occurrences p ++ more;
     pat_threatLevel := pat_threatLevel p;
     pat_isActive := pat_isActive p;
     pat_learningConfidence := pat_learningConfidence p;
     pat_totalImpact := pat_totalImpact p |}.

(** Worlds for the concrete runs. *)
Definition after_high_call : World :=
  exec (updateMemoryFromTransaction pow_square frozen_clock fixed_random36
          [tx1] tx1 high_decision_without_patterns)
       (new_service frozen_clock).

(** The transactions of a ledger to one counterparty, as
    [dataStore.getTransactions().filter(tx => tx.recipient === address)]. *)
Definition history_of (address : string) (ledger : list Transaction) :=
  List.filter (λ t, String.eqb (tx_recipient t) address) ledger.

(** How many transactions state a given purpose. *)
Definition purpose_count (purpose : string) (transactions : list Transaction) : nat :=
  length (List.filter
            (λ t, match tx_purpose t with
                  | Some s => String.eqb s purpose
                  | None => false
                  end) transactions).

(** The pattern types of the four detectors, in the order [detectPatterns]
    runs them. *)
Definition detector_types : list EconomicPatternType :=
  ["recurring_micro_costs"; "vendor_concentration"; "convenience_bias";
   "declining_value"].

(** What [detectConvenienceBias] takes for a round, large amount, and the
    share of such amounts in a ledger. *)
Definition bias_ratio (allTransactions : list Transaction) : float :=
  (JS.Number_of_nat (length (List.filter is_round_amount allTransactions))
   / JS.Number_of_nat (length allTransactions))%float.

(** Time order on transactions, as the comparator of [detectDecliningValue]
    has it. *)
Definition not_later (a b : Transaction) : Prop :=
  (tx_timestamp a <= tx_timestamp b)%Z.

(** ** The data store

    [backend/dataStore.ts]: the in-memory store the service reads its ledger
    from.  A [Map<string, V>] of the store is iterated, so here it is the
    list of its entries in insertion order, which holds a key at most once. *)

Module JSMap.

Section Entries.
Context {V : Type}.

(** [map.get(k)]. *)
Fixpoint get (k : string) (m : list (string * V)) : option V :=
  match m with
  | [] => None
  | (k', v) :: m' => if String.eqb k' k then Some v else get k m'
  end.

(** [map.set(k, v)]: a present key keeps its place, a new one goes last. *)
Fixpoint set (k : string) (v : V) (m : list (string * V)) : list (string * V) :=
  match m with
  | [] => [(k, v)]
  | (k', v') :: m' =>
      if String.eqb k' k then (k, v) :: m' else (k', v') :: set k v m'
  end.

(** [map.delete(k)], without its result. *)
Fixpoint delete (k : string) (m : list (string * V)) : list (string * V) :=
  match m with
  | [] => []
  | (k', v) :: m' => if String.eqb k' k then m' else (k', v) :: delete k m'
  end.

(** [map.has(k)], which is also what [map.delete(k)] returns. *)
Definition has (k : string) (m : list (string * V)) : bool :=
  match get k m with Some _ => true | None => false end.

(** [Array.from(map.values())]. *)
Definition values (m : list (string * V)) : list V := map snd m.

Definition keys (m : list (string * V)) : list string := map fst m.

End Entries.

End JSMap.

Module DataStore.

Inductive TransactionStatus := Pending | Confirming | Completed | Failed.

Section Store.

(** The decision a transaction carries is stored and returned as it is. *)
Context {Decision : Type}.

(** [Transaction], with all its fields. *)
Record TransactionRecord := {
  id : string;
  requestId : string;
  timestamp : Z;
  recipient : string;
  amount : float;
  purpose : option string;
  category : option string;
  decision : Decision;
  status : TransactionStatus;
  txHash : option string;
  explorerUrl : option string;
  errorMessage : option string
}.

(** [Partial<Transaction>]: the properties an update object has. *)
Record TransactionUpdates := {
  new_id : option string;
  new_requestId : option string;
  new_timestamp : option Z;
  new_recipient : option string;
  new_amount : option float;
  new_purpose : option (option string);
  new_category : option (option string);
  new_decision : option Decision;
  new_status : option TransactionStatus;
  new_txHash : option (option string);
  new_explorerUrl : option (option string);
  new_errorMessage : option (option string)
}.

(** [{ ...existing, ...updates }]. *)
Definition spread (existing : TransactionRecord) (updates : TransactionUpdates)
    : TransactionRecord :=
  {| id := default (id existing) (new_id updates);
     requestId := default (requestId existing) (new_requestId updates);
     timestamp := default (timestamp existing) (new_timestamp updates);
     recipient := default (recipient existing) (new_recipient updates);
     amount := default (amount existing) (new_amount updates);
     purpose := default (purpose existing) (new_purpose updates);
     category := default (category existing) (new_category updates);
     decision := default (decision existing) (new_decision updates);
     status := default (status existing) (new_status updates);
     txHash := default (txHash existing) (new_txHash updates);
     explorerUrl := default (explorerUrl existing) (new_explorerUrl updates);
     errorMessage := default (errorMessage existing) (new_errorMessage updates) |}.

(** The fields of the store that hold transactions, decisions and pending
    proposals. *)
Record Store := {
  transactions : list (string * TransactionRecord);
  decisions : list (string * Decision);
  pendingProposals : gset string
}.

Definition empty : Store :=
  {| transactions := []; decisions := []; pendingProposals := ∅ |}.

Definition set_transactions (v : list (string * TransactionRecord)) (s : Store) :=
  {| transactions := v; decisions := decisions s;
     pendingProposals := pendingProposals s |}.

Definition set_decisions (v : list (string * Decision)) (s : Store) :=
  {| transactions := transactions s; decisions := v;
     pendingProposals := pendingProposals s |}.

Definition set_pendingProposals (v : gset string) (s : Store) :=
  {| transactions := transactions s; decisions := decisions s;
     pendingProposals := v |}.

Definition saveTransaction (transaction : TransactionRecord) (s : Store)
    : TransactionRecord * Store :=
  (transaction,
   set_transactions (JSMap.set (id transaction) transaction (transactions s)) s).

Definition getTransaction (key : string) (s : Store) : option TransactionRecord :=
  JSMap.get key (transactions s).

Definition getTransactionByRequestId (rid : string) (s : Store)
    : option TransactionRecord :=
  List.find (λ tx, String.eqb (requestId tx) rid) (JSMap.values (transactions s)).

Definition getAllTransactions (s : Store) : list TransactionRecord :=
  JSMap.values (transactions s).

Definition getTransactions (s : Store) : list TransactionRecord :=
  getAllTransactions s.

Definition updateTransaction (key : string) (updates : TransactionUpdates) (s : Store)
    : option TransactionRecord * Store :=
  match JSMap.get key (transactions s) with
  | None => (None, s)
  | Some existing =>
      let updated := spread existing updates in
      (Some updated, set_transactions (JSMap.set key updated (transactions s)) s)
  end.

Definition deleteTransaction (key : string) (s : Store) : bool * Store :=
  (JSMap.has key (transactions s),
   set_transactions (JSMap.delete key (transactions s)) s).

Definition saveDecision (rid : string) (d : Decision) (s : Store) : Decision * Store :=
  (d, set_decisions (JSMap.set rid d (decisions s)) s).

Definition getDecision (rid : string) (s : Store) : option Decision :=
  JSMap.get rid (decisions s).

Definition isProposalPending (proposalKey : string) (s : Store) : bool :=
  bool_decide (proposalKey ∈ pendingProposals s).

Definition markProposalPending (proposalKey : string) (s : Store) : Store :=
  set_pendingProposals ({[proposalKey]} ∪ pendingProposals s) s.

Definition clearProposalPending (proposalKey : string) (s : Store) : Store :=
  set_pendingProposals (pendingProposals s ∖ {[proposalKey]}) s.

Definition clear (s : Store) : Store := empty.

(** [getStats()]. *)
Record Stats := {
  totalTransactions : nat;
  completedTransactions : nat;
  pendingTransactions : nat;
  failedTransactions : nat;
  totalDecisions : nat
}.

Definition has_status (wanted : TransactionStatus) (tx : TransactionRecord) : bool :=
  match status tx, wanted with
  | Pending, Pending | Confirming, Confirming
  | Completed, Completed | Failed, Failed => true
  | _, _ => false
  end.

Definition getStats (s : Store) : Stats :=
  let all := getAllTransactions s in
  {| totalTransactions := length all;
     completedTransactions := length (List.filter (has_status Completed) all);
     pendingTransactions :=
       length (List.filter (λ tx, has_status Pending tx || has_status Confirming tx) all);
     failedTransactions := length (List.filter (has_status Failed) all);
     totalDecisions := length (decisions s) |}.

(** Every entry is stored under the id it carries, and no key twice. *)
Definition well_keyed (s : Store) : Prop :=
  NoDup (JSMap.keys (transactions s))
  ∧ Forall (λ entry, id (snd entry) = fst entry) (transactions s).

End Store.

Arguments TransactionRecord : clear implicits.
Arguments TransactionUpdates : clear implicits.
Arguments Store : clear implicits.

End DataStore.

(** A store for the concrete runs: two transactions saved in an empty store. *)
Definition sample_record (key : string) (state : DataStore.TransactionStatus)
    : DataStore.TransactionRecord ImmuneDecisionResponse :=
  {| DataStore.id := key; DataStore.requestId := "req-" +:+ key;
     DataStore.timestamp := 1000; DataStore.recipient := "0xA";
     DataStore.amount := 25; DataStore.purpose := Some "hosting";
     DataStore.category := None; DataStore.decision := concentration_decision;
     DataStore.status := state; DataStore.txHash := None;
     DataStore.explorerUrl := None; DataStore.errorMessage := None |}.

Definition sample_store : DataStore.Store ImmuneDecisionResponse :=
  snd (DataStore.saveTransaction (sample_record "tx-2" DataStore.Completed)
         (snd (DataStore.saveTransaction (sample_record "tx-1" DataStore.Pending)
                 DataStore.empty))).

(** ** The evaluation context

    [buildImmuneContext] of [backend/services/insightsService.ts], which
    prepares the labels a fallback decision carries as [patterns_detected]. *)

Module InsightsService.

(** A memory reference: the template and the values it interpolates; a
    percentage is kept as the number handed to [Math.round]. *)
Inductive Reference :=
  | SimilarTransactions (howMany : nat) (recipient : string)
  | PercentOfTotal (recipient : string) (percent : float)
  | PercentRoundAmounts (percent : float).

Record RecipientHistory := {
  totalTransactions : nat;
  totalAmount : float;
  averageAmount : float;
  lastTransaction : option Z;
  purposes : list string
}.

Record ImmuneContext := {
  recipientHistory : option RecipientHistory;
  detectedPatterns : list string;
  memoryReferences : list Reference
}.

(** [a.filter(x => p(x))] for a predicate that reads the clock. *)
Fixpoint filterM {A} (p : A → M bool) (l : list A) : M (list A) :=
  match l with
  | [] => ret []
  | x :: l' =>
      keep <- p x ;;
      rest <- filterM p l' ;;
      ret (if keep then x :: rest else rest)
  end.

(** [[...new Set(a)]]: the first occurrence of each element, in order. *)
Fixpoint distinct (seen a : list string) : list string :=
  match a with
  | [] => []
  | x :: a' =>
      if existsb (String.eqb x) seen then distinct seen a'
      else x :: distinct (x :: seen) a'
  end.

(** [a.filter(Boolean)] on optional strings. *)
Definition truthy_strings (a : list (option string)) : list string :=
  flat_map (λ s, match s with Some (String c r) => [String c r] | _ => [] end) a.

Definition is_round_over_100 (amount : float) : bool :=
  (JS.rem amount 10 =? 0)%float && JS.gtb amount 100.

Definition buildImmuneContext (clock : nat → Z) (ledger : list Transaction)
    (recipient : string) (amount : float) (purpose : option string)
    : M ImmuneContext :=
  let transactions := ledger in
  let recipientTransactions :=
    List.filter (λ t, String.eqb (tx_recipient t) recipient) transactions in
  let recipientHistory :=
    if (0 <? length recipientTransactions)%nat
    then Some {| totalTransactions := length recipientTransactions;
                 totalAmount := JS.sum_by tx_amount recipientTransactions;
                 averageAmount :=
                   (JS.sum_by tx_amount recipientTransactions
                    / JS.Number_of_nat (length recipientTransactions))%float;
                 lastTransaction := tx_timestamp <$> last recipientTransactions;
                 purposes :=
                   distinct [] (truthy_strings (map tx_purpose recipientTransactions)) |}
    else None in
  micro <-
    (if (amount <? 50)%float && (3 <=? length recipientTransactions)%nat
     then
       recentTransactions <-
         filterM (λ t,
           now <- Date_now clock ;;
           ret (JS.gtb (JS.Number_of_Z (tx_timestamp t))
                       (JS.Number_of_Z now - 2592000000)))
           recipientTransactions ;;
       ret (if (3 <=? length recentTransactions)%nat
            then ([ "recurring_micro_costs" ],
                  [ SimilarTransactions (length recentTransactions) recipient ])
            else ([], []))
     else ret ([], [])) ;;
  let totalSpending := JS.sum_by tx_amount transactions in
  let recipientSpending := JS.sum_by tx_amount recipientTransactions in
  let vendor :=
    if JS.gtb totalSpending 0 && JS.gtb (recipientSpending / totalSpending) 0.3
    then ([ "vendor_concentration" ],
          [ PercentOfTotal recipient (recipientSpending / totalSpending * 100) ])
    else ([], []) in
  let convenience :=
    if is_round_over_100 amount
    then
      let roundAmountTransactions :=
        List.filter (λ t, is_round_over_100 (tx_amount t)) transactions in
      if JS.gtb (JS.Number_of_nat (length roundAmountTransactions))
                (JS.Number_of_nat (length transactions) * 0.6)
      then ([ "convenience_bias" ],
            [ PercentRoundAmounts
                (JS.Number_of_nat (length roundAmountTransactions)
                 / JS.Number_of_nat (length transactions) * 100) ])
      else ([], [])
    else ([], []) in
  ret {| recipientHistory := recipientHistory;
         detectedPatterns := fst micro ++ fst vendor ++ fst convenience;
         memoryReferences := snd micro ++ snd vendor ++ snd convenience |}.

End InsightsService.

(** * Facts about binary64 comparisons and addition

    Derived from the specification of the primitive operators
    ([FloatAxioms]) and the reference implementation [SpecFloat]. *)

Lemma compare_cont_antisym (p q : positive) :
  PosDef.Pos.compare_cont Eq q p = CompOpp (PosDef.Pos.compare_cont Eq p q).
Proof.
  change (Pos.compare_cont Eq q p = CompOpp (Pos.compare_cont Eq p q)).
  now rewrite Pos.compare_cont_antisym.
Qed.

Lemma compare_cont_refl (p : positive) : PosDef.Pos.compare_cont Eq p p = Eq.
Proof. exact (Pos.compare_refl p). Qed.

Lemma SFcompare_antisym x y :
  SFcompare y x = option_map CompOpp (SFcompare x y).
Proof.
  destruct x as [sx|sx| |sx mx ex], y as [sy|sy| |sy my ey]; cbn;
    try reflexivity; try (destruct sx; reflexivity); try (destruct sy; reflexivity);
    try (destruct sx, sy; reflexivity).
  destruct sx, sy; cbn; try reflexivity; f_equal;
    rewrite (Z.compare_antisym ey ex); destruct (ey ?= ex)%Z; cbn; try reflexivity;
    rewrite (compare_cont_antisym mx my);
    destruct (PosDef.Pos.compare_cont Eq mx my); reflexivity.
Qed.

Lemma ltb_leb (x y : float) : (x <? y)%float = true → (x <=? y)%float = true.
Proof.
  rewrite FloatAxioms.ltb_spec, FloatAxioms.leb_spec. unfold SFltb, SFleb.
  destruct (SFcompare _ _) as [[]|]; congruence.
Qed.

Lemma leb_not_ltb (x y : float) : (x <=? y)%float = true → (y <? x)%float = false.
Proof.
  rewrite FloatAxioms.ltb_spec, FloatAxioms.leb_spec. unfold SFltb, SFleb.
  rewrite (SFcompare_antisym (Prim2SF x) (Prim2SF y)).
  destruct (SFcompare _ _) as [[]|]; cbn; congruence.
Qed.

Lemma is_nan_spec (x : float) : is_nan x = false → Prim2SF x ≠ S754_nan.
Proof.
  unfold is_nan. rewrite FloatAxioms.eqb_spec. unfold SFeqb. intros H E. rewrite E in H.
  discriminate.
Qed.

Lemma not_nan_is_nan (x : float) : Prim2SF x ≠ S754_nan → is_nan x = false.
Proof.
  unfold is_nan. rewrite FloatAxioms.eqb_spec. unfold SFeqb. intros H.
  destruct (Prim2SF x) as [s|s| |s m e]; cbn; try reflexivity; try congruence.
  - destruct s; reflexivity.
  - rewrite Z.compare_refl.
    rewrite compare_cont_refl.
    destruct s; reflexivity.
Qed.

Lemma not_ltb_leb (x y : float) :
  is_nan x = false → is_nan y = false →
  (x <? y)%float = false → (y <=? x)%float = true.
Proof.
  intros Hx%is_nan_spec Hy%is_nan_spec.
  rewrite FloatAxioms.ltb_spec, FloatAxioms.leb_spec. unfold SFltb, SFleb.
  rewrite (SFcompare_antisym (Prim2SF x) (Prim2SF y)).
  destruct (Prim2SF x) as [sx|sx| |sx mx ex], (Prim2SF y) as [sy|sy| |sy my ey];
    try congruence; cbn;
    try (destruct sx; cbn; congruence); try (destruct sy; cbn; congruence);
    try (destruct sx, sy; cbn; congruence).
  destruct sx, sy; cbn; try congruence;
    destruct (ex ?= ey)%Z; cbn; try congruence;
    destruct (PosDef.Pos.compare_cont Eq mx my); cbn; congruence.
Qed.


Lemma shr_1_nonneg mrs : (0 <= shr_m mrs)%Z → (0 <= shr_m (shr_1 mrs))%Z.
Proof.
  destruct mrs as [m r s]; cbn. destruct m as [|[p|p|]|p]; cbn; lia.
Qed.

Lemma iter_pos_invariant {A} (P : A → Prop) (f : A → A) :
  (∀ a, P a → P (f a)) → ∀ p a, P a → P (SpecFloat.iter_pos f p a).
Proof.
  intros Hf. induction p as [p IH|p IH|]; cbn; intros a Ha; auto.
Qed.

Lemma shr_fexp_nonneg prec emax m e l :
  (0 <= m)%Z → (0 <= shr_m (fst (shr_fexp prec emax m e l)))%Z.
Proof.
  intros Hm. unfold shr_fexp, shr.
  assert (0 <= shr_m (shr_record_of_loc m l))%Z as H0
    by (destruct l as [|[]]; exact Hm).
  destruct (_ - e)%Z; cbn; try exact H0.
  apply (iter_pos_invariant (λ mrs, (0 <= shr_m mrs)%Z)); auto using shr_1_nonneg.
Qed.

Lemma round_nearest_even_nonneg m l :
  (0 <= m)%Z → (0 <= round_nearest_even m l)%Z.
Proof.
  intros Hm. unfold round_nearest_even.
  destruct l as [|[]]; try exact Hm; try destruct (Z.even m); lia.
Qed.

Lemma binary_round_aux_not_nan prec emax sx mx ex lx :
  (0 <= mx)%Z → binary_round_aux prec emax sx mx ex lx ≠ S754_nan.
Proof.
  intros Hm. unfold binary_round_aux.
  pose proof (shr_fexp_nonneg prec emax mx ex lx Hm) as H1.
  destruct (shr_fexp prec emax mx ex lx) as [mrs' e']. cbn in H1.
  pose proof (shr_fexp_nonneg prec emax _ e' loc_Exact
                (round_nearest_even_nonneg _ (loc_of_shr_record mrs') H1)) as H2.
  destruct (shr_fexp prec emax _ e' loc_Exact) as [mrs'' e'']. cbn in H2.
  destruct (shr_m mrs''); try discriminate; try lia.
  destruct (_ <=? _)%Z; discriminate.
Qed.

Lemma binary_normalize_not_nan prec emax m e sz :
  binary_normalize prec emax m e sz ≠ S754_nan.
Proof.
  unfold binary_normalize, binary_round.
  destruct m; try discriminate;
    destruct (shl_align _ _ _); apply binary_round_aux_not_nan; lia.
Qed.

Lemma SFadd_finite_not_nan x y :
  (∃ s, x = S754_zero s) ∨ (∃ s m e, x = S754_finite s m e) →
  y ≠ S754_nan → SF64add x y ≠ S754_nan.
Proof.
  intros Hx Hy. unfold SF64add, SFadd.
  destruct Hx as [[sx ->]|(sx & mx & ex & ->)], y as [sy|sy| |sy my ey];
    try congruence; try discriminate;
    try (destruct sx, sy; discriminate).
  apply binary_normalize_not_nan.
Qed.

Lemma in_0_100_finite (s : float) :
  in_0_100 s = true →
  (∃ b, Prim2SF s = S754_zero b) ∨ (∃ b m e, Prim2SF s = S754_finite b m e).
Proof.
  unfold in_0_100. rewrite andb_true_iff, !FloatAxioms.leb_spec.
  change (Prim2SF 0) with (S754_zero false).
  replace (Prim2SF 100) with (S754_finite false 7036874417766400 (-46))
    by (vm_compute; reflexivity).
  destruct (Prim2SF s) as [b|b| |b m e]; intros [H0 H100]; eauto 6.
  - destruct b; discriminate.
  - discriminate.
Qed.

Lemma add_not_nan (s d : float) :
  in_0_100 s = true → is_nan d = false → is_nan (s + d) = false.
Proof.
  intros Hs Hd. apply not_nan_is_nan. rewrite FloatAxioms.add_spec.
  apply SFadd_finite_not_nan; [now apply in_0_100_finite | now apply is_nan_spec].
Qed.

Lemma clamp_in_0_100 (x : float) :
  is_nan x = false → in_0_100 (JS.Math_max 0 (JS.Math_min 100 x)) = true.
Proof.
  intros Hx.
  assert (∀ y, is_nan y = false → (y <=? 100)%float = true →
               in_0_100 (JS.Math_max 0 y) = true) as Hmax.
  { intros y Hy Hle. unfold JS.Math_max. rewrite Hy.
    change (is_nan 0 || false) with false. cbv iota.
    change (get_sign 0) with false. cbv iota.
    destruct (0 <? y)%float eqn:E0.
    - unfold in_0_100. now rewrite (ltb_leb _ _ E0), Hle.
    - now destruct (y <? 0)%float. }
  unfold JS.Math_min. rewrite Hx.
  change (is_nan 100 || false) with false. cbv iota.
  change (get_sign 100) with false. cbv iota.
  destruct (100 <? x)%float eqn:E1; [reflexivity|].
  destruct (x <? 100)%float eqn:E2; apply Hmax; auto using ltb_leb.
  now apply not_ltb_leb.
Qed.

Lemma compare_cont_spec (p q : positive) :
  CompareSpec (p = q) (p < q)%positive (q < p)%positive
              (PosDef.Pos.compare_cont Eq p q).
Proof. exact (Pos.compare_spec p q). Qed.

Lemma SFcompare_lt_trans x y z :
  SFcompare x y = Some Lt → SFcompare y z = Some Lt → SFcompare x z = Some Lt.
Proof.
  destruct x as [sx|sx| |sx mx ex], y as [sy|sy| |sy my ey],
           z as [sz|sz| |sz mz ez]; cbn;
    try discriminate; try reflexivity;
    try (destruct sx; try discriminate; try reflexivity);
    try (destruct sy; try discriminate; try reflexivity);
    try (destruct sz; try discriminate; try reflexivity);
    destruct (Z.compare_spec ex ey), (Z.compare_spec ey ez),
             (Z.compare_spec ex ez); try discriminate; try reflexivity; try lia;
    destruct (compare_cont_spec mx my), (compare_cont_spec my mz),
             (compare_cont_spec mx mz); cbn; try discriminate; try reflexivity; lia.
Qed.

Lemma ltb_trans (x y z : float) :
  (x <? y)%float = true → (y <? z)%float = true → (x <? z)%float = true.
Proof.
  rewrite !FloatAxioms.ltb_spec. unfold SFltb.
  pose proof (SFcompare_lt_trans (Prim2SF x) (Prim2SF y) (Prim2SF z)) as H.
  destruct (SFcompare (Prim2SF x) (Prim2SF y)) as [[]|]; try discriminate.
  destruct (SFcompare (Prim2SF y) (Prim2SF z)) as [[]|]; try discriminate.
  now rewrite H.
Qed.

Lemma leb_refl (x : float) : is_nan x = false → (x <=? x)%float = true.
Proof.
  intros Hx. apply not_ltb_leb; try exact Hx.
  destruct (x <? x)%float eqn:E; [|reflexivity].
  now rewrite (leb_not_ltb _ _ (ltb_leb _ _ E)) in E.
Qed.

Lemma Math_min_le_l (a b : float) :
  is_nan a = false → is_nan b = false → (JS.Math_min a b <=? a)%float = true.
Proof.
  intros Ha Hb. unfold JS.Math_min. rewrite Ha, Hb. cbn [orb].
  destruct (a <? b)%float eqn:E1; [now apply leb_refl|].
  destruct (b <? a)%float eqn:E2; [now apply ltb_leb|].
  destruct (get_sign a); [now apply leb_refl | now apply not_ltb_leb].
Qed.

Lemma Math_max_ge_l (a b : float) :
  is_nan a = false → is_nan b = false → (a <=? JS.Math_max a b)%float = true.
Proof.
  intros Ha Hb. unfold JS.Math_max. rewrite Ha, Hb. cbn [orb].
  destruct (a <? b)%float eqn:E1; [now apply ltb_leb|].
  destruct (b <? a)%float eqn:E2; [now apply leb_refl|].
  destruct (get_sign a); [now apply not_ltb_leb | now apply leb_refl].
Qed.

Lemma SFadd_not_nan_r x s m e :
  x ≠ S754_nan → SF64add x (S754_finite s m e) ≠ S754_nan.
Proof.
  intros Hx. unfold SF64add, SFadd.
  destruct x as [sx|sx| |sx mx ex]; try congruence; try discriminate.
  apply binary_normalize_not_nan.
Qed.

Lemma SFsub_not_nan_r x s m e :
  x ≠ S754_nan → SF64sub x (S754_finite s m e) ≠ S754_nan.
Proof.
  intros Hx. unfold SF64sub, SFsub.
  destruct x as [sx|sx| |sx mx ex]; try congruence; try discriminate.
  apply binary_normalize_not_nan.
Qed.

Lemma step_up_capped (c : float) :
  is_nan c = false → (step_up c <=? 1)%float = true.
Proof.
  intros Hc. apply Math_min_le_l; [reflexivity|].
  apply not_nan_is_nan. rewrite FloatAxioms.add_spec.
  replace (Prim2SF 0.1) with (S754_finite false 7205759403792794 (-56))
    by (vm_compute; reflexivity).
  now apply SFadd_not_nan_r, is_nan_spec.
Qed.

Lemma step_down_floored (c : float) :
  is_nan c = false → (0.1 <=? step_down c)%float = true.
Proof.
  intros Hc. apply Math_max_ge_l; [reflexivity|].
  apply not_nan_is_nan. rewrite FloatAxioms.sub_spec.
  replace (Prim2SF 0.1) with (S754_finite false 7205759403792794 (-56))
    by (vm_compute; reflexivity).
  now apply SFsub_not_nan_r, is_nan_spec.
Qed.

(** * The effect of each operation on the memory *)

Lemma exec_bind {A B} (c : M A) (k : A → M B) (w : World) :
  exec (bind c k) w = exec (k (eval c w)) (exec c w).
Proof. unfold exec, eval, bind. now destruct (c w). Qed.

Lemma eval_bind {A B} (c : M A) (k : A → M B) (w : World) :
  eval (bind c k) w = eval (k (eval c w)) (exec c w).
Proof. unfold exec, eval, bind. now destruct (c w). Qed.

Lemma eval_ret {A} (a : A) (w : World) : eval (ret a) w = a.
Proof. reflexivity. Qed.

Lemma exec_ret {A} (a : A) (w : World) : exec (ret a) w = w.
Proof. reflexivity. Qed.

Lemma memory_modify f w : memory (exec (modify_memory f) w) = f (memory w).
Proof. reflexivity. Qed.

Lemma memory_Date_now clock w : memory (exec (Date_now clock) w) = memory w.
Proof. reflexivity. Qed.

Lemma memory_Math_random36 random36 w :
  memory (exec (Math_random36 random36) w) = memory w.
Proof. reflexivity. Qed.

Lemma memory_buildRecipientProfile Math_pow clock ledger address transactions w :
  memory (exec (buildRecipientProfile Math_pow clock ledger address transactions) w)
  = memory w.
Proof.
  unfold buildRecipientProfile. rewrite exec_bind, exec_ret.
  now destruct (last transactions).
Qed.

Lemma memory_updateRecipientProfile Math_pow clock ledger transaction w :
  ∃ rs, memory (exec (updateRecipientProfile Math_pow clock ledger transaction) w)
        = set_recipients rs (memory w).
Proof.
  unfold updateRecipientProfile.
  rewrite exec_bind. read_memory. rewrite exec_bind, memory_modify.
  destruct (recipients (memory w) !! tx_recipient transaction).
  - rewrite exec_ret. eauto.
  - rewrite memory_buildRecipientProfile. eauto.
Qed.

Lemma memory_recordPatternDetection clock patternType transaction threatLevel w :
  ∃ ps, memory (exec (recordPatternDetection clock patternType transaction threatLevel) w)
        = set_patterns ps (memory w).
Proof.
  unfold recordPatternDetection.
  rewrite exec_bind, exec_bind. read_memory.
  destruct (patterns _ !! _).
  - rewrite memory_modify, memory_Date_now. eauto.
  - rewrite exec_bind, memory_modify, !memory_Date_now. eauto.
Qed.

Lemma memory_record_each clock transaction threatLevel labels w :
  ∃ ps, memory (exec (for_of labels (λ patternType,
                  recordPatternDetection clock patternType transaction threatLevel)) w)
        = set_patterns ps (memory w).
Proof.
  revert w. induction labels as [|l labels IH]; intros w; cbn [for_of].
  - exists (patterns (memory w)). rewrite exec_ret. now destruct (memory w).
  - rewrite exec_bind.
    destruct (IH (exec (recordPatternDetection clock l transaction threatLevel) w))
      as [ps ->].
    destruct (memory_recordPatternDetection clock l transaction threatLevel w)
      as [ps' ->].
    now exists ps.
Qed.

Lemma memory_generateRiskSignal clock random36 transaction decision w :
  ∃ s, memory (exec (generateRiskSignal clock random36 transaction decision) w)
       = set_signals (signals (memory w) ++ [s]) (memory w)
     ∧ sig_type s
       = JS.or_string (head (patterns_detected decision)) "recurring_micro_costs"
     ∧ sig_severity s = threat_level decision
     ∧ relatedTransactions s = [tx_id transaction]
     ∧ isResolved s = false.
Proof.
  unfold generateRiskSignal. eexists.
  rewrite !exec_bind, memory_modify, memory_Date_now, memory_Math_random36,
    memory_Date_now.
  split; [reflexivity|]. cbn. auto.
Qed.

Lemma memory_updateMemoryFromTransaction
    Math_pow clock random36 ledger transaction decision w :
  let w' := exec (updateMemoryFromTransaction Math_pow clock random36
                    ledger transaction decision) w in
  resilienceScore (memory w')
    = clamp_score (resilienceScore (memory w)) (resilience_impact decision)
  ∧ adaptations (memory w') = adaptations (memory w)
  ∧ if raises_signal (threat_level decision)
    then ∃ s, signals (memory w') = signals (memory w) ++ [s]
            ∧ sig_type s
              = JS.or_string (head (patterns_detected decision)) "recurring_micro_costs"
            ∧ sig_severity s = threat_level decision
            ∧ relatedTransactions s = [tx_id transaction]
            ∧ isResolved s = false
    else signals (memory w') = signals (memory w).
Proof.
  cbv zeta. unfold updateMemoryFromTransaction.
  rewrite !exec_bind, memory_modify, memory_Date_now.
  set (w1 := exec (updateRecipientProfile _ _ _ _) w).
  set (w2 := exec (for_of _ _) w1).
  set (w3 := exec (updateResilienceScore _) w2).
  destruct (memory_updateRecipientProfile Math_pow clock ledger transaction w)
    as [rs H1]. fold w1 in H1.
  assert (∃ ps, memory w2 = set_patterns ps (memory w1)) as [ps H2]
    by apply memory_record_each.
  assert (memory w3 = set_resilienceScore
            (clamp_score (resilienceScore (memory w2)) (resilience_impact decision))
            (memory w2)) as H3 by reflexivity.
  destruct (threat_level decision) eqn:Ht; cbn [raises_signal];
    try (rewrite exec_ret, H3, H2, H1; cbn; auto);
    destruct (memory_generateRiskSignal clock random36 transaction decision w3)
      as (s & -> & Hs); rewrite Ht in Hs; rewrite H3, H2, H1; cbn; eauto 10.
Qed.

(** * The claims *)

(** ** Pattern identity (C1) *)

(** The key a pattern is stored under ends in the reading of the clock, so a
    later detection for the same type and counterparty meets no stored
    pattern unless it reads the same millisecond. *)
Lemma recordPatternDetection_key clock patternType transaction threatLevel w :
  let patternId :=
    patternType +:+ "-" +:+ tx_recipient transaction +:+ "-"
    +:+ pretty (clock (clockReads w)) in
  ∃ p, patterns (memory (exec (recordPatternDetection clock patternType transaction
                                 threatLevel) w)) !! patternId = Some p
     ∧ match patterns (memory w) !! patternId with
       | Some existing =>
           pat_occurrences p
           = pat_occurrences existing ++ [new_occurrence transaction threatLevel]
       | None => pat_occurrences p = [new_occurrence transaction threatLevel]
       end.
Proof.
  cbv zeta. unfold recordPatternDetection.
  rewrite !exec_bind. read_memory.
  change (eval (Date_now clock) w) with (clock (clockReads w)).
  change (memory (exec (Date_now clock) w)) with (memory w).
  destruct (patterns (memory w) !! _) as [existing|] eqn:E.
  - rewrite memory_modify. cbn. rewrite lookup_insert_eq. eauto.
  - rewrite exec_bind, memory_modify. cbn. rewrite lookup_insert_eq. eauto.
Qed.

(** C1, on the code: two calls for transactions to the same counterparty,
    each listing the same pattern type, one clock tick apart, leave two
    patterns of one occurrence each. *)
Theorem C1_two_patterns_for_one_pair :
  ∃ p1 p2,
    patterns (memory after_second_call) !! "vendor_concentration-0xA-1000" = Some p1
    ∧ patterns (memory after_second_call) !! "vendor_concentration-0xA-2000" = Some p2
    ∧ size (patterns (memory after_second_call)) = 2
    ∧ pat_type p1 = pat_type p2
    ∧ map occ_transactionId (pat_occurrences p1) = ["tx-1"]
    ∧ map occ_transactionId (pat_occurrences p2) = ["tx-2"].
Proof. do 2 eexists. repeat split; vm_compute; reflexivity. Qed.

(** When both calls read the same millisecond the occurrences are merged. *)
Lemma same_millisecond_merges :
  let w1 := exec (updateMemoryFromTransaction pow_square frozen_clock fixed_random36
                    [tx1] tx1 concentration_decision) (new_service frozen_clock) in
  let w2 := exec (updateMemoryFromTransaction pow_square frozen_clock fixed_random36
                    [tx1; tx2] tx2 concentration_decision) w1 in
  size (patterns (memory w2)) = 1
  ∧ (map occ_transactionId ∘ pat_occurrences)
      <$> patterns (memory w2) !! "vendor_concentration-0xA-1000"
    = Some ["tx-1"; "tx-2"].
Proof. split; vm_compute; reflexivity. Qed.

(** ** The resilience score (C2) *)

(** C2.  From a resilience score in [0,100], any finite sequence of calls of
    [updateMemoryFromTransaction] leaves the score in [0,100], whatever the
    magnitude and the sign of the resilience-impact deltas (a delta is a
    number: NaN has neither a magnitude nor a sign). *)
Theorem C2_resilience_score_stays_in_range
    (Math_pow : float → float → float) (clock : nat → Z)
    (random36 : nat → string) (calls : list Call) (w : World) :
  in_0_100 (resilienceScore (memory w)) = true →
  Forall (λ c, is_nan (resilience_impact (call_decision c)) = false) calls →
  in_0_100 (resilienceScore
              (memory (exec (run_calls Math_pow clock random36 calls) w))) = true.
Proof.
  unfold run_calls. revert w.
  induction calls as [|c calls IH]; intros w Hw Hcalls; [exact Hw|].
  inversion Hcalls as [|? ? Hc Hrest]; subst.
  cbn [for_of]. rewrite exec_bind. apply IH; [|exact Hrest].
  destruct (memory_updateMemoryFromTransaction Math_pow clock random36
              (fst (fst c)) (snd (fst c)) (snd c) w) as [-> _].
  apply clamp_in_0_100, add_not_nan; assumption.
Qed.

Lemma C2_witness :
  in_0_100 (resilienceScore (memory (new_service frozen_clock))) = true
  ∧ Forall (λ c, is_nan (resilience_impact (call_decision c)) = false) wild_calls
  ∧ in_0_100 (resilienceScore
                (memory (exec (run_calls pow_square frozen_clock fixed_random36
                                 wild_calls)
                              (new_service frozen_clock)))) = true.
Proof.
  assert (Forall (λ c, is_nan (resilience_impact (call_decision c)) = false)
                 wild_calls) as H by (repeat constructor).
  split; [reflexivity|]. split; [exact H|].
  apply (C2_resilience_score_stays_in_range pow_square frozen_clock fixed_random36
           wild_calls (new_service frozen_clock)); [reflexivity | exact H].
Defined.

(** ** Recipient profiles (C3) *)

Lemma recipients_updateRecipientProfile_existing
    Math_pow clock ledger transaction w profile :
  recipients (memory w) !! tx_recipient transaction = Some profile →
  recipients (memory (exec (updateRecipientProfile Math_pow clock ledger transaction) w))
  = recipients (memory w).
Proof.
  intros H. unfold updateRecipientProfile.
  rewrite exec_bind. read_memory. rewrite exec_bind, memory_modify, H, exec_ret.
  cbn. now apply insert_id.
Qed.

(** A stored profile survives [updateMemoryFromTransaction] unchanged. *)
Lemma existing_profile_is_kept
    Math_pow clock random36 ledger transaction decision w profile :
  recipients (memory w) !! tx_recipient transaction = Some profile →
  recipients (memory (exec (updateMemoryFromTransaction Math_pow clock random36
                              ledger transaction decision) w))
  = recipients (memory w).
Proof.
  intros H. unfold updateMemoryFromTransaction.
  rewrite !exec_bind, memory_modify, memory_Date_now.
  set (w1 := exec (updateRecipientProfile _ _ _ _) w).
  set (w2 := exec (for_of _ _) w1).
  set (w3 := exec (updateResilienceScore _) w2).
  assert (recipients (memory w1) = recipients (memory w)) as H1
    by (eapply recipients_updateRecipientProfile_existing; eassumption).
  assert (∃ ps, memory w2 = set_patterns ps (memory w1)) as [ps H2]
    by apply memory_record_each.
  assert (recipients (memory w3) = recipients (memory w)) as H3
    by (unfold w3; cbn; now rewrite H2).
  destruct (threat_level decision); try (rewrite exec_ret; exact H3);
    destruct (memory_generateRiskSignal clock random36 transaction decision w3)
      as (s & -> & _); exact H3.
Qed.

(** C3, on the code: the profile stored by the first call is still the one
    stored after a second transaction to the counterparty, while the profile
    recomputed from the full history counts both. *)
Theorem C3_stored_profile_is_stale :
  ∃ stored recomputed,
    recipients (memory after_first_call) !! "0xA" = Some stored
    ∧ recipients (memory after_second_call) !! "0xA" = Some stored
    ∧ eval (buildRecipientProfile pow_square two_call_clock [tx1; tx2] "0xA" [tx1; tx2])
           after_first_call = recomputed
    ∧ count (transactionHistory stored) = 1
    ∧ totalAmount (transactionHistory stored) = 10%float
    ∧ averageAmount (transactionHistory stored) = 10%float
    ∧ count (transactionHistory recomputed) = 2
    ∧ totalAmount (transactionHistory recomputed) = 30%float
    ∧ averageAmount (transactionHistory recomputed) = 15%float.
Proof. do 2 eexists. repeat split; vm_compute; reflexivity. Qed.

(** ** The detectors (C4, C6) *)

Lemma detectVendorConcentration_result clock newTransaction allTransactions w :
  let share := spend_share newTransaction allTransactions in
  let fired := eval (detectVendorConcentration clock newTransaction allTransactions) w in
  if (JS.sum_by tx_amount allTransactions =? 0)%float then fired = None
  else if (share <? 0.3)%float then fired = None
  else ∃ p, fired = Some p
          ∧ pat_threatLevel p
            = (if JS.gtb share 0.6 then HIGH
               else if JS.gtb share 0.4 then MEDIUM else LOW).
Proof.
  cbv zeta. unfold detectVendorConcentration.
  fold (spend_share newTransaction allTransactions).
  destruct (_ =? 0)%float; [reflexivity|].
  destruct (_ <? 0.3)%float; [reflexivity|].
  rewrite !eval_bind, eval_ret. eauto.
Qed.

(** C4, amended.  [detectVendorConcentration] returns no pattern when total
    spend is 0 or the share is below 30%; it fires for every share at or
    above 30%, exactly 30% included; a pattern it returns is HIGH for a share
    above 60%, MEDIUM above 40% up to 60%, LOW up to 40%. *)
Theorem C4_vendor_concentration_thresholds
    (clock : nat → Z) (newTransaction : Transaction)
    (allTransactions : list Transaction) (w : World) :
  let share := spend_share newTransaction allTransactions in
  let total := JS.sum_by tx_amount allTransactions in
  let fired := eval (detectVendorConcentration clock newTransaction allTransactions) w in
  ((total =? 0)%float = true → fired = None)
  ∧ ((share <? 0.3)%float = true → fired = None)
  ∧ ((total =? 0)%float = false → (0.3 <=? share)%float = true → is_Some fired)
  ∧ ∀ p, fired = Some p →
      ((0.6 <? share)%float = true → pat_threatLevel p = HIGH)
      ∧ ((0.4 <? share)%float = true → (share <=? 0.6)%float = true →
         pat_threatLevel p = MEDIUM)
      ∧ ((share <=? 0.4)%float = true → pat_threatLevel p = LOW).
Proof.
  cbv zeta.
  pose proof (detectVendorConcentration_result clock newTransaction allTransactions w)
    as H. cbv zeta in H.
  destruct (_ =? 0)%float.
  { rewrite H. split; [|split; [|split]]; intros; congruence. }
  destruct (_ <? 0.3)%float eqn:Hlow.
  { rewrite H. split; [|split; [|split]]; try (intros; congruence).
    intros _ Hge%leb_not_ltb. congruence. }
  destruct H as (p & -> & Hp). split; [|split; [|split]]; try (intros; congruence).
  { intros _ _. eexists; reflexivity. }
  intros q [= <-]. rewrite Hp. unfold JS.gtb. split; [|split].
  - now intros ->.
  - intros Hmid Hle%leb_not_ltb. now rewrite Hle, Hmid.
  - intros Hle. rewrite (leb_not_ltb _ _ Hle).
    assert ((0.6 <? spend_share newTransaction allTransactions)%float = false) as ->;
      [|reflexivity].
    destruct (0.6 <? _)%float eqn:E; [|reflexivity].
    exfalso. apply leb_not_ltb in Hle.
    rewrite (ltb_trans 0.4 0.6 _ eq_refl E) in Hle. discriminate.
Qed.

Lemma C4_witness :
  is_Some (eval (detectVendorConcentration frozen_clock tx_a ledger_30_of_100)
                (new_service frozen_clock)).
Proof.
  apply (C4_vendor_concentration_thresholds frozen_clock tx_a ledger_30_of_100
           (new_service frozen_clock)); reflexivity.
Defined.

(** C4, as stated, fails: with 30 of 100 units spent on a counterparty the
    share is exactly 0.3 and the detector fires. *)
Lemma C4_fires_at_exactly_30_percent :
  spend_share tx_a ledger_30_of_100 = 0.3%float
  ∧ ∃ p, eval (detectVendorConcentration frozen_clock tx_a ledger_30_of_100)
              (new_service frozen_clock) = Some p
       ∧ pat_threatLevel p = LOW.
Proof. split; [reflexivity|]. eexists. split; reflexivity. Qed.

Lemma detectRecurringMicroCosts_result clock newTransaction allTransactions w :
  let total := micro_cost_total newTransaction allTransactions in
  let fired := eval (detectRecurringMicroCosts clock newTransaction allTransactions) w in
  if JS.geb (tx_amount newTransaction) 50 then fired = None
  else if (length (micro_costs newTransaction allTransactions) <? 3)%nat
  then fired = None
  else ∃ p, fired = Some p
          ∧ pat_totalImpact p = total
          ∧ pat_threatLevel p
            = (if JS.gtb total 200 then HIGH
               else if JS.gtb total 100 then MEDIUM else LOW).
Proof.
  cbv zeta. unfold detectRecurringMicroCosts, micro_cost_total.
  fold (micro_costs newTransaction allTransactions).
  destruct (JS.geb _ _); [reflexivity|].
  destruct (_ <? 3)%nat; [reflexivity|].
  rewrite !eval_bind, eval_ret. eauto.
Qed.

Lemma ltb_not_leb (x y : float) : (x <? y)%float = true → (y <=? x)%float = false.
Proof.
  intros Hlt. destruct (y <=? x)%float eqn:Hle; [|reflexivity].
  apply leb_not_ltb in Hle. congruence.
Qed.

(** C6.  [detectRecurringMicroCosts] fires exactly when the new amount is
    not at or above 50 and the ledger holds at least 3 transactions to the
    same counterparty that are below 50.  So it never fires for a new amount
    at or above 50, exactly 50 included, and fires for every new amount
    below 50, 49.99 included, that meets 3 such transactions.  The pattern
    is HIGH when the cumulative total of those transactions is above 200,
    MEDIUM when above 100, else LOW. *)
Theorem C6_micro_cost_boundary
    (clock : nat → Z) (newTransaction : Transaction)
    (allTransactions : list Transaction) (w : World) :
  let total := micro_cost_total newTransaction allTransactions in
  let fired := eval (detectRecurringMicroCosts clock newTransaction allTransactions) w in
  (is_Some fired ↔
     (50 <=? tx_amount newTransaction)%float = false
     ∧ 3 ≤ length (micro_costs newTransaction allTransactions))
  ∧ ((50 <=? tx_amount newTransaction)%float = true → fired = None)
  ∧ (tx_amount newTransaction = 50%float → fired = None)
  ∧ ((tx_amount newTransaction <? 50)%float = true →
     3 ≤ length (micro_costs newTransaction allTransactions) → is_Some fired)
  ∧ (tx_amount newTransaction = 49.99%float →
     3 ≤ length (micro_costs newTransaction allTransactions) → is_Some fired)
  ∧ ∀ p, fired = Some p →
      pat_totalImpact p = total
      ∧ pat_threatLevel p
        = (if (200 <? total)%float then HIGH
           else if (100 <? total)%float then MEDIUM else LOW)
      ∧ ((200 <? total)%float = true → pat_threatLevel p = HIGH)
      ∧ ((100 <? total)%float = true → (total <=? 200)%float = true →
         pat_threatLevel p = MEDIUM)
      ∧ ((total <=? 100)%float = true → pat_threatLevel p = LOW).
Proof.
  cbv zeta.
  pose proof (detectRecurringMicroCosts_result clock newTransaction allTransactions w)
    as H. cbv zeta in H. unfold JS.geb in H.
  assert (Hiff : is_Some (eval (detectRecurringMicroCosts clock newTransaction
                                  allTransactions) w)
                 ↔ (50 <=? tx_amount newTransaction)%float = false
                   ∧ 3 ≤ length (micro_costs newTransaction allTransactions)).
  { destruct (50 <=? _)%float.
    - rewrite H. split; [intros [? [=]] | intros [[=] _]].
    - destruct (_ <? 3)%nat eqn:Hlen.
      + apply Nat.ltb_lt in Hlen. rewrite H.
        split; [intros [? [=]] | intros [_ ?]; lia].
      + apply Nat.ltb_ge in Hlen. destruct H as (p & -> & _).
        split; [auto | eauto]. }
  split; [exact Hiff|]. split; [|split; [|split; [|split]]].
  - intros E. rewrite E in H. exact H.
  - intros E. rewrite E in H. exact H.
  - intros Hlt Hlen. apply Hiff. split; [now apply ltb_not_leb | exact Hlen].
  - intros E Hlen. apply Hiff. split; [now rewrite E | exact Hlen].
  - intros p Hp. rewrite Hp in H.
    destruct (50 <=? _)%float; [discriminate|].
    destruct (_ <? 3)%nat; [discriminate|].
    destruct H as (q & [= <-] & Htotal & Hlevel).
    rewrite Hlevel. unfold JS.gtb. split; [exact Htotal|].
    split; [reflexivity|]. split; [|split].
    + now intros ->.
    + intros Hmid Hle%leb_not_ltb. now rewrite Hle, Hmid.
    + intros Hle. rewrite (leb_not_ltb _ _ Hle).
      destruct (200 <? _)%float eqn:E; [|reflexivity].
      exfalso. apply leb_not_ltb in Hle.
      rewrite (ltb_trans 100 200 _ eq_refl E) in Hle. discriminate.
Qed.

Lemma C6_witness :
  (tx_amount micro_payment <? 50)%float = true
  ∧ 3 ≤ length (micro_costs micro_payment micro_ledger)
  ∧ is_Some (eval (detectRecurringMicroCosts frozen_clock micro_payment micro_ledger)
                  (new_service frozen_clock)).
Proof.
  assert (Hlen : 3 ≤ length (micro_costs micro_payment micro_ledger))
    by (vm_compute; lia).
  split; [reflexivity|]. split; [exact Hlen|].
  exact (proj1 (proj2 (proj2 (proj2
           (C6_micro_cost_boundary frozen_clock micro_payment micro_ledger
              (new_service frozen_clock)))))
         eq_refl Hlen).
Defined.

(** ** Risk signals (C5, C10) *)

(** C5.  [updateMemoryFromTransaction] appends no risk signal when the
    decision's threat level is LOW or MEDIUM, and appends exactly one, which
    lists the transaction's id and is not resolved, when it is HIGH or
    CRITICAL. *)
Theorem C5_risk_signal_threshold
    (Math_pow : float → float → float) (clock : nat → Z)
    (random36 : nat → string) (ledger : list Transaction)
    (transaction : Transaction) (decision : ImmuneDecisionResponse) (w : World) :
  let w' := exec (updateMemoryFromTransaction Math_pow clock random36
                    ledger transaction decision) w in
  match threat_level decision with
  | LOW | MEDIUM => signals (memory w') = signals (memory w)
  | HIGH | CRITICAL =>
      ∃ s, signals (memory w') = signals (memory w) ++ [s]
         ∧ relatedTransactions s = [tx_id transaction]
         ∧ isResolved s = false
  end.
Proof.
  cbv zeta.
  destruct (memory_updateMemoryFromTransaction Math_pow clock random36
              ledger transaction decision w) as (_ & _ & H).
  destruct (threat_level decision); cbn [raises_signal] in H; try exact H;
    destruct H as (s & ? & _ & _ & ? & ?); eauto.
Qed.

(** C10.  A HIGH or CRITICAL decision with an empty [patterns_detected]
    still gets its risk signal, of type ['recurring_micro_costs']. *)
Theorem C10_signal_type_defaults
    (Math_pow : float → float → float) (clock : nat → Z)
    (random36 : nat → string) (ledger : list Transaction)
    (transaction : Transaction) (decision : ImmuneDecisionResponse) (w : World) :
  patterns_detected decision = [] →
  threat_level decision = HIGH ∨ threat_level decision = CRITICAL →
  ∃ s, signals (memory (exec (updateMemoryFromTransaction Math_pow clock random36
                                ledger transaction decision) w))
       = signals (memory w) ++ [s]
     ∧ sig_type s = "recurring_micro_costs".
Proof.
  intros Hnone Hhigh.
  destruct (memory_updateMemoryFromTransaction Math_pow clock random36
              ledger transaction decision w) as (_ & _ & H).
  assert (raises_signal (threat_level decision) = true) as Hr
    by (destruct Hhigh as [-> | ->]; reflexivity).
  rewrite Hr, Hnone in H. destruct H as (s & ? & ? & _). eauto.
Qed.

Lemma C10_witness :
  ∃ s, signals (memory (exec (updateMemoryFromTransaction pow_square frozen_clock
                                fixed_random36 [tx1] tx1
                                high_decision_without_patterns)
                             (new_service frozen_clock)))
       = [] ++ [s]
     ∧ sig_type s = "recurring_micro_costs".
Proof.
  apply (C10_signal_type_defaults pow_square frozen_clock fixed_random36 [tx1] tx1
           high_decision_without_patterns (new_service frozen_clock));
    [reflexivity | left; reflexivity].
Defined.

(** ** Cadence classification (C7) *)

Lemma intervals_time_deltas (l : list Transaction) :
  map (λ i, (time_at l i - time_at l (i - 1))%float) (seq 1 (length l - 1))
  = time_deltas l.
Proof.
  induction l as [|a [|b l] IH]; [reflexivity..|].
  change (time_deltas (a :: b :: l))
    with ((JS.Number_of_Z (tx_timestamp b) - JS.Number_of_Z (tx_timestamp a))%float
          :: time_deltas (b :: l)).
  rewrite <- IH.
  change (length (a :: b :: l) - 1) with (S (length l)).
  change (length (b :: l) - 1) with (length l - 0).
  rewrite Nat.sub_0_r. cbn [seq map]. f_equal.
  rewrite <- seq_shift, map_map.
  apply map_ext_in. intros i Hi%in_seq.
  destruct i as [|i]; [lia|]. cbn. now rewrite Nat.sub_0_r.
Qed.

Lemma amount_at_middle pre x rest : amount_at (pre ++ x :: rest) (length pre) = x.
Proof. unfold amount_at. now rewrite list_lookup_middle. Qed.

Lemma every_non_decreasing rest : ∀ pre x,
  every_from (λ amount i, JS.geb amount (amount_at (pre ++ x :: rest) i))
             (length pre) rest
  = non_decreasing (x :: rest).
Proof.
  induction rest as [|y rest IH]; intros pre x; [reflexivity|].
  change (non_decreasing (x :: y :: rest))
    with ((x <=? y)%float && non_decreasing (y :: rest)).
  cbn [every_from]. rewrite amount_at_middle. unfold JS.geb at 1.
  f_equal. rewrite <- (IH (pre ++ [x]) y), length_app, Nat.add_1_r.
  now rewrite <- app_assoc.
Qed.

Lemma every_non_increasing rest : ∀ pre x,
  every_from (λ amount i, (amount <=? amount_at (pre ++ x :: rest) i)%float)
             (length pre) rest
  = non_increasing (x :: rest).
Proof.
  induction rest as [|y rest IH]; intros pre x; [reflexivity|].
  change (non_increasing (x :: y :: rest))
    with ((y <=? x)%float && non_increasing (y :: rest)).
  cbn [every_from]. rewrite amount_at_middle.
  f_equal. rewrite <- (IH (pre ++ [x]) y), length_app, Nat.add_1_r.
  now rewrite <- app_assoc.
Qed.

Lemma analyzeTimePattern_unfold Math_pow transactions :
  analyzeTimePattern Math_pow transactions
  = if (length transactions <? 3)%nat then sporadic
    else
      let intervals :=
        map (λ i, (time_at transactions i - time_at transactions (i - 1))%float)
            (seq 1 (length transactions - 1)) in
      let amounts := map tx_amount transactions in
      if (variance Math_pow intervals <? mean intervals * 0.3)%float then regular
      else if every (λ amount i, JS.geb amount (amount_at amounts i)) (drop 1 amounts)
      then increasing
      else if every (λ amount i, (amount <=? amount_at amounts i)%float) (drop 1 amounts)
      then decreasing
      else sporadic.
Proof. reflexivity. Qed.

(** C7.  [analyzeTimePattern] classifies as the specification words it:
    fewer than 3 transactions are sporadic; otherwise regular when the
    variance of the time deltas is below 30% of their mean, else increasing
    when the amounts never decrease, else decreasing when they never increase,
    else sporadic. *)
Theorem C7_cadence_classification
    (Math_pow : float → float → float) (transactions : list Transaction) :
  analyzeTimePattern Math_pow transactions = cadence_per_spec Math_pow transactions.
Proof.
  rewrite analyzeTimePattern_unfold. unfold cadence_per_spec. cbv zeta.
  rewrite (intervals_time_deltas transactions).
  destruct (length transactions <? 3)%nat; [reflexivity|].
  destruct (_ <? _)%float; [reflexivity|].
  destruct (map tx_amount transactions) as [|x rest]; [reflexivity|].
  unfold every. change (drop 1 (x :: rest)) with rest.
  pose proof (every_non_decreasing rest [] x) as Hup.
  pose proof (every_non_increasing rest [] x) as Hdown.
  cbn [app length] in Hup, Hdown. now rewrite Hup, Hdown.
Qed.

(** ** Sensitivity adaptation (C8) *)

Lemma patterns_adaptSensitivity clock random36 patternType o w :
  patterns (memory (exec (adaptSensitivity clock random36 patternType o) w))
  = (λ pattern, if String.eqb (pat_type pattern) patternType
                then adapt_confidence o pattern else pattern)
    <$> patterns (memory w).
Proof. reflexivity. Qed.

Lemma confidence_adaptSensitivity clock random36 patternType o w k :
  confidence_at (exec (adaptSensitivity clock random36 patternType o) w) k
  = (λ pattern, pat_learningConfidence
       (if String.eqb (pat_type pattern) patternType
        then adapt_confidence o pattern else pattern))
    <$> patterns (memory w) !! k.
Proof.
  unfold confidence_at. rewrite patterns_adaptSensitivity, lookup_fmap.
  now destruct (patterns (memory w) !! k).
Qed.

Lemma type_adaptSensitivity clock random36 patternType o w k :
  pat_type <$> patterns (memory (exec (adaptSensitivity clock random36 patternType o) w)) !! k
  = pat_type <$> patterns (memory w) !! k.
Proof.
  rewrite patterns_adaptSensitivity, lookup_fmap.
  destruct (patterns (memory w) !! k) as [p|]; [|reflexivity]. cbn.
  destruct (String.eqb _ _); [|reflexivity]. now destruct o.
Qed.

Lemma confidence_adapted clock random36 patternType o w k c :
  pat_type <$> patterns (memory w) !! k = Some patternType →
  confidence_at w k = Some c →
  confidence_at (exec (adaptSensitivity clock random36 patternType o) w) k
  = Some (match o with success => step_up c | _ => step_down c end).
Proof.
  unfold confidence_at at 1. intros Ht Hc.
  rewrite confidence_adaptSensitivity.
  destruct (patterns (memory w) !! k) as [p|]; [|discriminate].
  cbn in *. injection Ht as ->. injection Hc as <-.
  rewrite String.eqb_refl. now destruct o.
Qed.

Lemma type_after_adaptations clock random36 patternType o k n w :
  pat_type <$> patterns (memory w) !! k = Some patternType →
  pat_type <$> patterns (memory (Nat.iter n
                 (exec (adaptSensitivity clock random36 patternType o)) w)) !! k
  = Some patternType.
Proof.
  intros Hw. induction n as [|n IH]; [exact Hw|].
  rewrite Nat.iter_succ. now rewrite type_adaptSensitivity.
Qed.

(** C8, amended.  [adaptSensitivity] replaces the learning confidence [c] of
    every stored pattern of the given type by [min(1.0, c + 0.1)] on success
    and by [max(0.1, c - 0.1)] on failure, in binary64 arithmetic, never above
    1.0 and never below 0.1, and leaves the patterns of other types as they
    are.  From 0.5, three successes yield 0.7999999999999999 and three failures
    0.20000000000000004. *)
Theorem C8_adaptSensitivity_step
    (clock : nat → Z) (random36 : nat → string)
    (patternType : EconomicPatternType) (w : World)
    (patternId : string) (pattern : EconomicPattern) :
  patterns (memory w) !! patternId = Some pattern →
  let c := pat_learningConfidence pattern in
  let after o := exec (adaptSensitivity clock random36 patternType o) in
  (pat_type pattern = patternType →
     confidence_at (after success w) patternId = Some (step_up c)
     ∧ confidence_at (after failure w) patternId = Some (step_down c)
     ∧ (c = 0.5%float →
        confidence_at (after success (after success (after success w))) patternId
        = Some 0.7999999999999999%float
        ∧ confidence_at (after failure (after failure (after failure w))) patternId
          = Some 0.20000000000000004%float))
  ∧ (pat_type pattern ≠ patternType →
     ∀ o, patterns (memory (after o w)) !! patternId = Some pattern)
  ∧ (is_nan c = false →
     (step_up c <=? 1)%float = true ∧ (0.1 <=? step_down c)%float = true).
Proof.
  intros Hp c after. subst after. cbn beta.
  assert (confidence_at w patternId = Some c) as Hc
    by (unfold confidence_at; now rewrite Hp).
  split; [|split].
  - intros Ht.
    assert (pat_type <$> patterns (memory w) !! patternId = Some patternType) as Hty
      by (now rewrite Hp, <- Ht).
    pose proof (λ o n, type_after_adaptations clock random36 patternType o
                         patternId n w Hty) as Hkeep.
    split; [|split].
    + exact (confidence_adapted clock random36 patternType success w patternId c Hty Hc).
    + exact (confidence_adapted clock random36 patternType failure w patternId c Hty Hc).
    + intros E. rewrite E in Hc. split.
      * apply (confidence_adapted clock random36 patternType success _ patternId
                 (step_up (step_up 0.5))); [exact (Hkeep success 2%nat)|].
        apply (confidence_adapted clock random36 patternType success _ patternId
                 (step_up 0.5)); [exact (Hkeep success 1%nat)|].
        exact (confidence_adapted clock random36 patternType success w patternId _ Hty Hc).
      * apply (confidence_adapted clock random36 patternType failure _ patternId
                 (step_down (step_down 0.5))); [exact (Hkeep failure 2%nat)|].
        apply (confidence_adapted clock random36 patternType failure _ patternId
                 (step_down 0.5)); [exact (Hkeep failure 1%nat)|].
        exact (confidence_adapted clock random36 patternType failure w patternId _ Hty Hc).
  - intros Hne o. rewrite patterns_adaptSensitivity, lookup_fmap, Hp.
    cbn. destruct (String.eqb_spec (pat_type pattern) patternType); congruence.
  - intros Hnan. split; [now apply step_up_capped | now apply step_down_floored].
Qed.

Lemma C8_witness :
  confidence_at (adapt_three_times success one_pattern_world)
                "convenience_bias-0xA-1000"
  = Some 0.7999999999999999%float.
Proof.
  epose proof (C8_adaptSensitivity_step frozen_clock fixed_random36
                 "convenience_bias" one_pattern_world
                 "convenience_bias-0xA-1000" _ ?[stored]) as H.
  [stored]: { vm_compute. reflexivity. }
  cbv zeta in H. destruct H as [H _].
  exact (proj1 (proj2 (proj2 (H eq_refl)) eq_refl)).
Defined.

(** C8, as stated, fails: from 0.5, three successes leave a confidence that
    is not 0.8, and three failures one that is not 0.2. *)
Lemma C8_three_steps_miss_the_decimal :
  confidence_at one_pattern_world "convenience_bias-0xA-1000" = Some 0.5%float
  ∧ (∃ c, confidence_at (adapt_three_times success one_pattern_world)
                        "convenience_bias-0xA-1000" = Some c
        ∧ (c =? 0.8)%float = false)
  ∧ (∃ c, confidence_at (adapt_three_times failure one_pattern_world)
                        "convenience_bias-0xA-1000" = Some c
        ∧ (c =? 0.2)%float = false).
Proof.
  split; [reflexivity|]. split; eexists; (split; [vm_compute; reflexivity|reflexivity]).
Qed.

(** ** Severities (C9) *)

(** The severities [recordPatternDetection] stores are in [0,1]. *)
Lemma stored_severity_in_range threatLevel transaction :
  in_0_1 (occ_severity (new_occurrence transaction threatLevel)) = true.
Proof. now destruct threatLevel. Qed.

(** C9, on the code: for payments of 10, 10, 20 and 20 to one counterparty,
    [detectDecliningValue] returns occurrences of severity 1, 2 and 2. *)
Theorem C9_declining_value_severity_above_one :
  ∃ p, eval (detectDecliningValue frozen_clock tx3 rising_ledger)
            (new_service frozen_clock) = Some p
     ∧ map occ_severity (pat_occurrences p) = [1; 2; 2]%float
     ∧ forallb in_0_1 (map occ_severity (pat_occurrences p)) = false.
Proof. eexists. repeat split; vm_compute; reflexivity. Qed.

(** * Beyond the claims: invariants and edge behaviour *)

Lemma known_confidences_closed :
  forallb (λ c, known_confidence (step_up c) && known_confidence (step_down c))
          known_confidences = true.
Proof. vm_compute. reflexivity. Qed.

Lemma known_confidences_bounded :
  forallb (λ c, (0.1 <=? c)%float && (c <=? 1)%float) known_confidences = true.
Proof. vm_compute. reflexivity. Qed.

Lemma known_confidence_In c : known_confidence c = true → In c known_confidences.
Proof.
  unfold known_confidence. rewrite existsb_exists.
  intros (x & Hx & E). apply FloatAxioms.Leibniz.eqb_spec in E. now subst.
Qed.

Lemma known_confidence_step c o :
  known_confidence c = true →
  known_confidence (match o with success => step_up c | _ => step_down c end) = true.
Proof.
  intros H%known_confidence_In.
  pose proof (proj1 (forallb_forall _ _) known_confidences_closed c H) as Hc.
  apply andb_true_iff in Hc. destruct Hc. now destruct o.
Qed.

Lemma known_confidence_bounds c :
  known_confidence c = true → (0.1 <=? c)%float = true ∧ (c <=? 1)%float = true.
Proof.
  intros H%known_confidence_In.
  pose proof (proj1 (forallb_forall _ _) known_confidences_bounded c H) as Hc.
  now apply andb_true_iff in Hc.
Qed.

(** ** What one operation does to the patterns *)

Lemma recordPatternDetection_effect clock patternType transaction threatLevel w :
  let patternId :=
    patternType +:+ "-" +:+ tx_recipient transaction +:+ "-"
    +:+ pretty (clock (clockReads w)) in
  ∃ p, memory (exec (recordPatternDetection clock patternType transaction
                       threatLevel) w)
       = set_patterns (<[patternId := p]> (patterns (memory w))) (memory w)
     ∧ match patterns (memory w) !! patternId with
       | Some existing =>
           p = push_occurrence (new_occurrence transaction threatLevel) existing
       | None =>
           pat_id p = patternId
           ∧ pat_type p = patternType
           ∧ pat_occurrences p = [new_occurrence transaction threatLevel]
           ∧ pat_threatLevel p = threatLevel
           ∧ pat_isActive p = true
           ∧ pat_learningConfidence p = 0.5%float
           ∧ pat_totalImpact p = tx_amount transaction
       end.
Proof.
  cbv zeta. unfold recordPatternDetection.
  rewrite !exec_bind. read_memory.
  change (eval (Date_now clock) w) with (clock (clockReads w)).
  change (memory (exec (Date_now clock) w)) with (memory w).
  destruct (patterns (memory w) !! _) as [existing|] eqn:E.
  - rewrite memory_modify. eexists. split; reflexivity.
  - rewrite exec_bind, memory_modify. eexists. split; [reflexivity|]. cbn. auto 10.
Qed.

Lemma memory_ok_same m m' :
  patterns m' = patterns m → signals m' = signals m → memory_ok m → memory_ok m'.
Proof. unfold memory_ok. now intros -> ->. Qed.

Lemma pattern_ok_push patternId p transaction threatLevel :
  pattern_ok patternId p →
  pattern_ok patternId (push_occurrence (new_occurrence transaction threatLevel) p).
Proof.
  intros (Hid & Hact & Hconf & (first & rest & Hocc & Hsev) & Hall).
  repeat split; cbn; try assumption.
  - exists first, (rest ++ [new_occurrence transaction threatLevel]).
    now rewrite Hocc.
  - apply Forall_app. split; [exact Hall|]. repeat constructor. now exists threatLevel.
Qed.

Lemma memory_ok_recordPatternDetection clock patternType transaction threatLevel w :
  memory_ok (memory w) →
  memory_ok (memory (exec (recordPatternDetection clock patternType transaction
                             threatLevel) w)).
Proof.
  intros [Hp Hs].
  destruct (recordPatternDetection_effect clock patternType transaction threatLevel w)
    as (p & -> & H).
  split; [|exact Hs]. cbn. apply map_Forall_insert_2; [|exact Hp].
  destruct (patterns (memory w) !! _) as [existing|] eqn:E.
  - subst p. apply pattern_ok_push. exact (Hp _ _ E).
  - destruct H as (Hid & _ & Hocc & Hlevel & Hact & Hconf & _).
    repeat split; try assumption.
    + now rewrite Hconf.
    + eexists _, []. rewrite Hocc, Hlevel. split; reflexivity.
    + rewrite Hocc. repeat constructor. now exists threatLevel.
Qed.

Lemma memory_ok_record_each clock transaction threatLevel labels : ∀ w,
  memory_ok (memory w) →
  memory_ok (memory (exec (for_of labels (λ patternType,
               recordPatternDetection clock patternType transaction threatLevel)) w)).
Proof.
  induction labels as [|l labels IH]; intros w Hw; [exact Hw|].
  cbn [for_of]. rewrite exec_bind. apply IH.
  now apply memory_ok_recordPatternDetection.
Qed.

Lemma or_string_not_empty s d : d ≠ EmptyString → JS.or_string s d ≠ EmptyString.
Proof. intros Hd. destruct s as [[|a r]|]; cbn; congruence. Qed.

Lemma memory_ok_updateMemoryFromTransaction
    Math_pow clock random36 ledger transaction decision w :
  memory_ok (memory w) →
  memory_ok (memory (exec (updateMemoryFromTransaction Math_pow clock random36
                             ledger transaction decision) w)).
Proof.
  intros Hw. unfold updateMemoryFromTransaction.
  rewrite !exec_bind, memory_modify, memory_Date_now.
  set (w1 := exec (updateRecipientProfile _ _ _ _) w).
  set (w2 := exec (for_of _ _) w1).
  set (w3 := exec (updateResilienceScore _) w2).
  assert (memory_ok (memory w1)) as H1.
  { destruct (memory_updateRecipientProfile Math_pow clock ledger transaction w)
      as [rs H]. fold w1 in H. rewrite H. exact Hw. }
  assert (memory_ok (memory w2)) as H2 by now apply memory_ok_record_each.
  assert (memory_ok (memory w3)) as H3 by exact H2.
  match goal with
  | |- memory_ok (set_lastUpdated _ ?m) => apply (memory_ok_same m); [reflexivity..|]
  end.
  destruct (threat_level decision) eqn:Ht; try exact H3;
    destruct (memory_generateRiskSignal clock random36 transaction decision w3)
      as (s & -> & Htype & Hsev & Hrel & Hres);
    (split; [exact (proj1 H3)|]); cbn; apply Forall_app; (split; [exact (proj2 H3)|]);
    repeat constructor; try assumption;
    try (rewrite Hsev, Ht; reflexivity); try (rewrite Hrel; reflexivity);
    rewrite Htype; now apply or_string_not_empty.
Qed.

Lemma pattern_ok_adapt patternId p patternType o :
  pattern_ok patternId p →
  pattern_ok patternId (if String.eqb (pat_type p) patternType
                        then adapt_confidence o p else p).
Proof.
  intros Hp. destruct (String.eqb _ _); [|exact Hp].
  destruct Hp as (Hid & Hact & Hconf & Hfirst & Hall).
  pose proof (known_confidence_step _ o Hconf) as Hstep.
  destruct o; repeat split; assumption.
Qed.

Lemma memory_ok_adaptSensitivity clock random36 patternType o w :
  memory_ok (memory w) →
  memory_ok (memory (exec (adaptSensitivity clock random36 patternType o) w)).
Proof.
  intros [Hp Hs]. split; [|exact Hs].
  rewrite patterns_adaptSensitivity. apply map_Forall_fmap.
  intros k p Hk. cbn. apply pattern_ok_adapt. exact (Hp k p Hk).
Qed.

Lemma memory_getRecipientProfile Math_pow clock ledger address w :
  ∃ rs, memory (exec (getRecipientProfile Math_pow clock ledger address) w)
        = set_recipients rs (memory w).
Proof.
  unfold getRecipientProfile. rewrite exec_bind. read_memory.
  destruct (recipients (memory w) !! address).
  - exists (recipients (memory w)). rewrite exec_ret. now destruct (memory w).
  - destruct (length _ =? 0)%nat.
    + exists (recipients (memory w)). rewrite exec_ret. now destruct (memory w).
    + rewrite !exec_bind, exec_ret, memory_modify, memory_buildRecipientProfile.
      eauto.
Qed.

(** ** The detectors leave the memory alone *)

Lemma memory_detectRecurringMicroCosts clock newTransaction allTransactions w :
  memory (exec (detectRecurringMicroCosts clock newTransaction allTransactions) w)
  = memory w.
Proof.
  unfold detectRecurringMicroCosts.
  destruct (JS.geb _ _); [reflexivity|]. now destruct (_ <? 3)%nat.
Qed.

Lemma memory_detectVendorConcentration clock newTransaction allTransactions w :
  memory (exec (detectVendorConcentration clock newTransaction allTransactions) w)
  = memory w.
Proof.
  unfold detectVendorConcentration.
  destruct (_ =? 0)%float; [reflexivity|]. now destruct (_ <? 0.3)%float.
Qed.

Lemma memory_detectConvenienceBias clock newTransaction allTransactions w :
  memory (exec (detectConvenienceBias clock newTransaction allTransactions) w)
  = memory w.
Proof.
  unfold detectConvenienceBias.
  destruct (_ || _); [reflexivity|]. now destruct (_ <? 0.6)%float.
Qed.

Lemma memory_detectDecliningValue clock newTransaction allTransactions w :
  memory (exec (detectDecliningValue clock newTransaction allTransactions) w)
  = memory w.
Proof.
  unfold detectDecliningValue.
  destruct (_ <? 4)%nat; [reflexivity|]. now destruct (_ <=? _)%float.
Qed.

Lemma memory_push_if_detected detector detectedPatterns w :
  memory (exec (push_if_detected detector detectedPatterns) w)
  = memory (exec detector w).
Proof. unfold push_if_detected. now rewrite exec_bind, exec_ret. Qed.

Lemma memory_detectPatterns clock ledger newTransaction w :
  memory (exec (detectPatterns clock ledger newTransaction) w) = memory w.
Proof.
  unfold detectPatterns. rewrite !exec_bind.
  now rewrite memory_push_if_detected, memory_detectDecliningValue,
    memory_push_if_detected, memory_detectConvenienceBias,
    memory_push_if_detected, memory_detectVendorConcentration,
    memory_push_if_detected, memory_detectRecurringMicroCosts.
Qed.

(** ** The invariant of the reachable states *)

Lemma memory_ok_initial now : memory_ok (initial_memory now).
Proof. split; [apply map_Forall_empty | constructor]. Qed.

Lemma reachable_memory_ok Math_pow clock random36 w :
  Reachable Math_pow clock random36 w → memory_ok (memory w).
Proof.
  induction 1 as [|ledger transaction decision w _ IH|patternType o w _ IH
                  |ledger address w _ IH|ledger newTransaction w _ IH].
  - apply memory_ok_initial.
  - now apply memory_ok_updateMemoryFromTransaction.
  - now apply memory_ok_adaptSensitivity.
  - destruct (memory_getRecipientProfile Math_pow clock ledger address w) as [rs ->].
    exact IH.
  - now rewrite memory_detectPatterns.
Qed.

Lemma after_second_call_reachable :
  Reachable pow_square two_call_clock fixed_random36 after_second_call.
Proof. do 2 apply reach_update. apply reach_new. Qed.

Lemma after_high_call_reachable :
  Reachable pow_square frozen_clock fixed_random36 after_high_call.
Proof. apply reach_update, reach_new. Qed.

(** X1.  In every state a service reaches, a pattern is stored under its own
    id, is active and has at least one occurrence. *)
Theorem X1_stored_patterns_keyed_active
    (Math_pow : float → float → float) (clock : nat → Z) (random36 : nat → string)
    (w : World) (patternId : string) (p : EconomicPattern) :
  Reachable Math_pow clock random36 w →
  patterns (memory w) !! patternId = Some p →
  pat_id p = patternId ∧ pat_isActive p = true ∧ pat_occurrences p ≠ [].
Proof.
  intros Hw Hp. destruct (reachable_memory_ok _ _ _ _ Hw) as [Hps _].
  destruct (Hps _ _ Hp) as (Hid & Hact & _ & (first & rest & -> & _) & _).
  now repeat split.
Qed.

Lemma X1_witness :
  ∃ p, patterns (memory after_second_call) !! "vendor_concentration-0xA-2000" = Some p
     ∧ pat_id p = "vendor_concentration-0xA-2000"
     ∧ pat_isActive p = true ∧ pat_occurrences p ≠ [].
Proof.
  eexists. split; [vm_compute; reflexivity|].
  apply (X1_stored_patterns_keyed_active pow_square two_call_clock fixed_random36
           after_second_call);
    [exact after_second_call_reachable | vm_compute; reflexivity].
Defined.

(** X2.  In every state a service reaches, every occurrence of a stored
    pattern has a severity in [0,1], and the first one has the severity of
    the pattern's threat level. *)
Theorem X2_stored_severities_in_range
    (Math_pow : float → float → float) (clock : nat → Z) (random36 : nat → string)
    (w : World) (patternId : string) (p : EconomicPattern) :
  Reachable Math_pow clock random36 w →
  patterns (memory w) !! patternId = Some p →
  Forall (λ o, in_0_1 (occ_severity o) = true) (pat_occurrences p)
  ∧ occ_severity <$> head (pat_occurrences p) = Some (severity_of (pat_threatLevel p)).
Proof.
  intros Hw Hp. destruct (reachable_memory_ok _ _ _ _ Hw) as [Hps _].
  destruct (Hps _ _ Hp) as (_ & _ & _ & (first & rest & Hocc & Hsev) & Hall).
  split.
  - eapply Forall_impl; [exact Hall|]. intros o [t ->]. now destruct t.
  - rewrite Hocc. cbn. now rewrite Hsev.
Qed.

Lemma X2_witness :
  ∃ p, patterns (memory after_second_call) !! "vendor_concentration-0xA-2000" = Some p
     ∧ Forall (λ o, in_0_1 (occ_severity o) = true) (pat_occurrences p)
     ∧ occ_severity <$> head (pat_occurrences p)
       = Some (severity_of (pat_threatLevel p)).
Proof.
  eexists. split; [vm_compute; reflexivity|].
  apply (X2_stored_severities_in_range pow_square two_call_clock fixed_random36
           after_second_call "vendor_concentration-0xA-2000");
    [exact after_second_call_reachable | vm_compute; reflexivity].
Defined.

(** X3.  In every state a service reaches, the learning confidence of a
    stored pattern is between 0.1 and 1.0. *)
Theorem X3_stored_confidence_bounds
    (Math_pow : float → float → float) (clock : nat → Z) (random36 : nat → string)
    (w : World) (patternId : string) (p : EconomicPattern) :
  Reachable Math_pow clock random36 w →
  patterns (memory w) !! patternId = Some p →
  (0.1 <=? pat_learningConfidence p)%float = true
  ∧ (pat_learningConfidence p <=? 1)%float = true.
Proof.
  intros Hw Hp. destruct (reachable_memory_ok _ _ _ _ Hw) as [Hps _].
  destruct (Hps _ _ Hp) as (_ & _ & Hconf & _).
  now apply known_confidence_bounds.
Qed.

Lemma X3_witness :
  ∃ p, patterns (memory after_second_call) !! "vendor_concentration-0xA-2000" = Some p
     ∧ (0.1 <=? pat_learningConfidence p)%float = true
     ∧ (pat_learningConfidence p <=? 1)%float = true.
Proof.
  eexists. split; [vm_compute; reflexivity|].
  apply (X3_stored_confidence_bounds pow_square two_call_clock fixed_random36
           after_second_call "vendor_concentration-0xA-2000");
    [exact after_second_call_reachable | vm_compute; reflexivity].
Defined.

Lemma filter_unresolved (l : list RiskSignal) :
  Forall signal_ok l → List.filter (λ signal, negb (isResolved signal)) l = l.
Proof.
  induction 1 as [|s l (Hres & _) _ IH]; [reflexivity|].
  cbn. now rewrite Hres, IH.
Qed.

(** X4.  In every state a service reaches no signal is resolved, so
    [getActiveRiskSignals] returns every signal; each is HIGH or CRITICAL,
    lists one transaction and has a non-empty pattern type. *)
Theorem X4_every_signal_is_active
    (Math_pow : float → float → float) (clock : nat → Z) (random36 : nat → string)
    (w : World) :
  Reachable Math_pow clock random36 w →
  eval getActiveRiskSignals w = signals (memory w)
  ∧ Forall (λ s, (sig_severity s = HIGH ∨ sig_severity s = CRITICAL)
               ∧ length (relatedTransactions s) = 1
               ∧ sig_type s ≠ EmptyString)
           (signals (memory w)).
Proof.
  intros Hw. destruct (reachable_memory_ok _ _ _ _ Hw) as [_ Hs]. split.
  - unfold getActiveRiskSignals. rewrite eval_bind, eval_ret. read_memory.
    now apply filter_unresolved.
  - eapply Forall_impl; [exact Hs|]. intros s (_ & Hsev & Hrel & Hty).
    repeat split; try assumption. destruct (sig_severity s); auto; discriminate.
Qed.

Lemma X4_witness :
  eval getActiveRiskSignals after_high_call = signals (memory after_high_call)
  ∧ length (signals (memory after_high_call)) = 1.
Proof.
  split; [|reflexivity].
  apply (X4_every_signal_is_active pow_square frozen_clock fixed_random36
           after_high_call after_high_call_reachable).
Defined.

(** ** What a call keeps *)

Lemma append_occurrences_nil p : append_occurrences [] p = p.
Proof. destruct p. unfold append_occurrences. cbn. now rewrite app_nil_r. Qed.

Lemma append_occurrences_append more more' p :
  append_occurrences more' (append_occurrences more p)
  = append_occurrences (more ++ more') p.
Proof. unfold append_occurrences. cbn. now rewrite app_assoc. Qed.

Lemma recordPatternDetection_keeps clock patternType transaction threatLevel w k p :
  patterns (memory w) !! k = Some p →
  ∃ n, n ≤ 1
     ∧ patterns (memory (exec (recordPatternDetection clock patternType transaction
                                 threatLevel) w)) !! k
       = Some (append_occurrences
                 (repeat (new_occurrence transaction threatLevel) n) p).
Proof.
  intros Hk.
  destruct (recordPatternDetection_effect clock patternType transaction threatLevel w)
    as (q & -> & Hq). cbn [patterns set_patterns].
  set (k0 := _ +:+ _) in *.
  destruct (decide (k0 = k)) as [->|Hne].
  - rewrite lookup_insert_eq. rewrite Hk in Hq. subst q.
    exists 1. split; [lia|]. reflexivity.
  - rewrite lookup_insert_ne by exact Hne. exists 0. split; [lia|].
    now rewrite append_occurrences_nil.
Qed.

Lemma record_each_keeps clock transaction threatLevel labels : ∀ w k p,
  patterns (memory w) !! k = Some p →
  ∃ n, n ≤ length labels
     ∧ patterns (memory (exec (for_of labels (λ patternType,
           recordPatternDetection clock patternType transaction threatLevel)) w)) !! k
       = Some (append_occurrences
                 (repeat (new_occurrence transaction threatLevel) n) p).
Proof.
  induction labels as [|l labels IH]; intros w k p Hk.
  - exists 0. split; [reflexivity|]. cbn [for_of repeat].
    now rewrite exec_ret, append_occurrences_nil.
  - cbn [for_of]. rewrite exec_bind.
    destruct (recordPatternDetection_keeps clock l transaction threatLevel w k p Hk)
      as (n1 & Hn1 & H1).
    destruct (IH _ k _ H1) as (n2 & Hn2 & H2).
    exists (n1 + n2). split; [cbn; lia|].
    now rewrite H2, append_occurrences_append, repeat_app.
Qed.

Lemma patterns_updateMemoryFromTransaction
    Math_pow clock random36 ledger transaction decision w :
  patterns (memory (exec (updateMemoryFromTransaction Math_pow clock random36
                            ledger transaction decision) w))
  = patterns (memory (exec (for_of (patterns_detected decision) (λ patternType,
        recordPatternDetection clock patternType transaction (threat_level decision)))
      (exec (updateRecipientProfile Math_pow clock ledger transaction) w))).
Proof.
  unfold updateMemoryFromTransaction.
  rewrite !exec_bind, memory_modify, memory_Date_now.
  set (w2 := exec (for_of _ _) _).
  set (w3 := exec (updateResilienceScore _) w2).
  destruct (threat_level decision); try reflexivity;
    destruct (memory_generateRiskSignal clock random36 transaction decision w3)
      as (s & -> & _); reflexivity.
Qed.

(** X5.  [updateMemoryFromTransaction] never removes or rewrites a stored
    pattern: it stays under its key with every field as it was, threat level
    and total impact included, and at most one occurrence for the transaction
    appended per label of the decision. *)
Theorem X5_update_keeps_patterns
    (Math_pow : float → float → float) (clock : nat → Z) (random36 : nat → string)
    (ledger : list Transaction) (transaction : Transaction)
    (decision : ImmuneDecisionResponse) (w : World)
    (patternId : string) (p : EconomicPattern) :
  patterns (memory w) !! patternId = Some p →
  ∃ n, n ≤ length (patterns_detected decision)
     ∧ patterns (memory (exec (updateMemoryFromTransaction Math_pow clock random36
                                 ledger transaction decision) w)) !! patternId
       = Some (append_occurrences
                 (repeat (new_occurrence transaction (threat_level decision)) n) p).
Proof.
  intros Hp. rewrite patterns_updateMemoryFromTransaction.
  apply record_each_keeps.
  destruct (memory_updateRecipientProfile Math_pow clock ledger transaction w)
    as [rs ->]. exact Hp.
Qed.

Lemma X5_witness :
  ∃ p n, patterns (memory after_first_call) !! "vendor_concentration-0xA-1000" = Some p
       ∧ n ≤ 1
       ∧ patterns (memory after_second_call) !! "vendor_concentration-0xA-1000"
         = Some (append_occurrences
                   (repeat (new_occurrence tx2 LOW) n) p).
Proof.
  eexists.
  destruct (X5_update_keeps_patterns pow_square two_call_clock fixed_random36
              [tx1; tx2] tx2 concentration_decision after_first_call
              "vendor_concentration-0xA-1000" _ ltac:(vm_compute; reflexivity))
    as (n & Hn & H).
  exists n. split; [reflexivity|]. split; [exact Hn | exact H].
Defined.

(** ** Recipient profiles *)

Lemma eval_buildRecipientProfile Math_pow clock ledger addr transactions w :
  let p := eval (buildRecipientProfile Math_pow clock ledger addr transactions) w in
  address p = addr
  ∧ count (transactionHistory p) = length transactions
  ∧ totalAmount (transactionHistory p) = JS.sum_by tx_amount transactions
  ∧ averageAmount (transactionHistory p)
    = (JS.sum_by tx_amount transactions
       / JS.Number_of_nat (length transactions))%float
  ∧ purposes (transactionHistory p) = fold_left count_purpose transactions ∅
  ∧ timePattern (transactionHistory p) = analyzeTimePattern Math_pow transactions
  ∧ overallRisk (riskAssessment p) = 0%float
  ∧ lastInteraction p
    = match last transactions with
      | Some t => tx_timestamp t
      | None => clock (clockReads w)
      end.
Proof.
  cbv zeta. unfold buildRecipientProfile. rewrite eval_bind, eval_ret.
  cbn. repeat split. now destruct (last transactions).
Qed.

Lemma history_of_nil addr ledger :
  Forall (λ t, tx_recipient t ≠ addr) ledger → history_of addr ledger = [].
Proof.
  induction 1 as [|t l Ht _ IH]; [reflexivity|].
  cbn. destruct (String.eqb_spec (tx_recipient t) addr); [contradiction|exact IH].
Qed.

(** X6.  [getRecipientProfile] for a counterparty with no stored profile and
    no transaction in the ledger returns no profile and leaves the service as
    it was. *)
Theorem X6_no_history_no_profile
    (Math_pow : float → float → float) (clock : nat → Z)
    (ledger : list Transaction) (addr : string) (w : World) :
  recipients (memory w) !! addr = None →
  Forall (λ t, tx_recipient t ≠ addr) ledger →
  getRecipientProfile Math_pow clock ledger addr w = (None, w).
Proof.
  intros Hnone Hledger. unfold getRecipientProfile, bind, get_memory.
  rewrite Hnone. fold (history_of addr ledger).
  now rewrite (history_of_nil _ _ Hledger).
Qed.

Lemma X6_witness :
  getRecipientProfile pow_square frozen_clock [tx1; tx2] "0xB"
                      (new_service frozen_clock)
  = (None, new_service frozen_clock).
Proof.
  apply (X6_no_history_no_profile pow_square frozen_clock [tx1; tx2] "0xB"
           (new_service frozen_clock)); [reflexivity|].
  repeat constructor; discriminate.
Defined.

Lemma getRecipientProfile_built Math_pow clock ledger addr w :
  recipients (memory w) !! addr = None →
  history_of addr ledger ≠ [] →
  let p := eval (buildRecipientProfile Math_pow clock ledger addr
                   (history_of addr ledger)) w in
  eval (getRecipientProfile Math_pow clock ledger addr) w = Some p
  ∧ memory (exec (getRecipientProfile Math_pow clock ledger addr) w)
    = set_recipients (<[addr := p]> (recipients (memory w))) (memory w).
Proof.
  intros Hnone Hhist. cbv zeta. unfold getRecipientProfile.
  rewrite eval_bind, exec_bind. read_memory. rewrite Hnone.
  fold (history_of addr ledger).
  destruct (history_of addr ledger) as [|t l] eqn:E; [contradiction|].
  change (length (t :: l) =? 0)%nat with false. cbv iota.
  rewrite !eval_bind, !exec_bind, eval_ret, exec_ret, memory_modify,
    memory_buildRecipientProfile.
  split; reflexivity.
Qed.

(** X7.  The first profile [getRecipientProfile] builds for a counterparty
    counts the ledger's transactions to it, carries its address and the time
    of the last of them, and is stored under the address. *)
Theorem X7_first_profile_from_history
    (Math_pow : float → float → float) (clock : nat → Z)
    (ledger : list Transaction) (addr : string) (w : World) :
  recipients (memory w) !! addr = None →
  history_of addr ledger ≠ [] →
  ∃ p, eval (getRecipientProfile Math_pow clock ledger addr) w = Some p
     ∧ recipients (memory (exec (getRecipientProfile Math_pow clock ledger addr) w))
         !! addr = Some p
     ∧ address p = addr
     ∧ count (transactionHistory p) = length (history_of addr ledger)
     ∧ Some (lastInteraction p) = tx_timestamp <$> last (history_of addr ledger).
Proof.
  intros Hnone Hhist.
  destruct (getRecipientProfile_built Math_pow clock ledger addr w Hnone Hhist)
    as [Heval Hmem].
  eexists. split; [exact Heval|]. rewrite Hmem. cbn [recipients set_recipients].
  rewrite lookup_insert_eq. split; [reflexivity|].
  destruct (eval_buildRecipientProfile Math_pow clock ledger addr
              (history_of addr ledger) w) as (Ha & Hc & _ & _ & _ & _ & _ & Hl).
  repeat split; try assumption. rewrite Hl.
  destruct (last (history_of addr ledger)) as [t|] eqn:E; [reflexivity|].
  apply last_None in E. contradiction.
Qed.

Lemma X7_witness :
  ∃ p, eval (getRecipientProfile pow_square frozen_clock [tx1; tx_b; tx2] "0xA")
            (new_service frozen_clock) = Some p
     ∧ address p = "0xA"
     ∧ count (transactionHistory p) = 2
     ∧ lastInteraction p = 2%Z.
Proof.
  destruct (X7_first_profile_from_history pow_square frozen_clock [tx1; tx_b; tx2]
              "0xA" (new_service frozen_clock) eq_refl ltac:(discriminate))
    as (p & Hp & _ & Ha & Hc & Hl).
  exists p. repeat split; try assumption. now injection Hl.
Defined.

(** X8.  Once [getRecipientProfile] has returned a profile, every later call
    for that counterparty returns the same profile and changes nothing,
    whatever the ledger has become. *)
Theorem X8_profile_is_cached
    (Math_pow : float → float → float) (clock : nat → Z)
    (ledger ledger' : list Transaction) (addr : string) (w : World)
    (p : RecipientProfile) :
  eval (getRecipientProfile Math_pow clock ledger addr) w = Some p →
  let w' := exec (getRecipientProfile Math_pow clock ledger addr) w in
  getRecipientProfile Math_pow clock ledger' addr w' = (Some p, w').
Proof.
  intros Hp. cbv zeta.
  assert (recipients (memory (exec (getRecipientProfile Math_pow clock ledger addr) w))
            !! addr = Some p) as Hstored.
  { destruct (recipients (memory w) !! addr) as [q|] eqn:E.
    - revert Hp. unfold getRecipientProfile, eval, exec, bind, get_memory.
      rewrite E. cbn. intros [= <-]. exact E.
    - destruct (history_of addr ledger) as [|t l] eqn:Eh.
      + revert Hp. unfold getRecipientProfile, eval, bind, get_memory.
        rewrite E. fold (history_of addr ledger). rewrite Eh. discriminate.
      + destruct (getRecipientProfile_built Math_pow clock ledger addr w E)
          as [Heval Hmem]; [now rewrite Eh|].
        rewrite Hmem. cbn [recipients set_recipients].
        rewrite lookup_insert_eq. congruence. }
  unfold getRecipientProfile at 1. unfold bind, get_memory. now rewrite Hstored.
Qed.

Lemma X8_witness :
  ∃ p w',
    getRecipientProfile pow_square frozen_clock [tx1] "0xA" (new_service frozen_clock)
    = (Some p, w')
    ∧ getRecipientProfile pow_square frozen_clock [tx1; tx2; tx3] "0xA" w'
      = (Some p, w')
    ∧ count (transactionHistory p) = 1.
Proof.
  do 2 eexists. split; [vm_compute; reflexivity|]. split; [|reflexivity].
  refine (X8_profile_is_cached pow_square frozen_clock [tx1] [tx1; tx2; tx3] "0xA"
            (new_service frozen_clock) _ _).
  vm_compute. reflexivity.
Defined.

Lemma recipients_updateRecipientProfile Math_pow clock ledger transaction w :
  recipients (memory (exec (updateRecipientProfile Math_pow clock ledger transaction) w))
  = <[tx_recipient transaction :=
        match recipients (memory w) !! tx_recipient transaction with
        | Some existing => existing
        | None =>
            eval (buildRecipientProfile Math_pow clock ledger (tx_recipient transaction)
                    (history_of (tx_recipient transaction) ledger)) w
        end]> (recipients (memory w)).
Proof.
  unfold updateRecipientProfile.
  rewrite exec_bind. read_memory. rewrite exec_bind, memory_modify.
  destruct (recipients (memory w) !! tx_recipient transaction).
  - now rewrite exec_ret, eval_ret.
  - now rewrite memory_buildRecipientProfile.
Qed.

Lemma recipients_updateMemoryFromTransaction
    Math_pow clock random36 ledger transaction decision w :
  recipients (memory (exec (updateMemoryFromTransaction Math_pow clock random36
                              ledger transaction decision) w))
  = recipients (memory (exec (updateRecipientProfile Math_pow clock ledger
                                transaction) w)).
Proof.
  unfold updateMemoryFromTransaction.
  rewrite !exec_bind, memory_modify, memory_Date_now.
  set (w1 := exec (updateRecipientProfile _ _ _ _) w).
  set (w2 := exec (for_of _ _) w1).
  set (w3 := exec (updateResilienceScore _) w2).
  assert (∃ ps, memory w2 = set_patterns ps (memory w1)) as [ps H2]
    by apply memory_record_each.
  assert (recipients (memory w3) = recipients (memory w1)) as H3
    by (unfold w3; cbn; now rewrite H2).
  destruct (threat_level decision); try (rewrite exec_ret; exact H3);
    destruct (memory_generateRiskSignal clock random36 transaction decision w3)
      as (s & -> & _); exact H3.
Qed.

(** X9.  After [updateMemoryFromTransaction] the transaction's counterparty
    has a stored profile, and the profile of every other counterparty is the
    one stored before. *)
Theorem X9_update_touches_one_profile
    (Math_pow : float → float → float) (clock : nat → Z) (random36 : nat → string)
    (ledger : list Transaction) (transaction : Transaction)
    (decision : ImmuneDecisionResponse) (w : World) :
  let w' := exec (updateMemoryFromTransaction Math_pow clock random36
                    ledger transaction decision) w in
  is_Some (recipients (memory w') !! tx_recipient transaction)
  ∧ ∀ other, other ≠ tx_recipient transaction →
      recipients (memory w') !! other = recipients (memory w) !! other.
Proof.
  cbv zeta.
  rewrite recipients_updateMemoryFromTransaction, recipients_updateRecipientProfile.
  split.
  - rewrite lookup_insert_eq. eauto.
  - intros other Hne. now rewrite lookup_insert_ne.
Qed.

(** X10.  When neither the memory nor the ledger knows the counterparty,
    [updateMemoryFromTransaction] stores a profile of an empty history:
    count 0, total 0, an average that is NaN, cadence sporadic, and the clock
    reading as the last interaction. *)
Theorem X10_profile_of_empty_history
    (Math_pow : float → float → float) (clock : nat → Z) (random36 : nat → string)
    (ledger : list Transaction) (transaction : Transaction)
    (decision : ImmuneDecisionResponse) (w : World) :
  recipients (memory w) !! tx_recipient transaction = None →
  Forall (λ t, tx_recipient t ≠ tx_recipient transaction) ledger →
  ∃ p, recipients (memory (exec (updateMemoryFromTransaction Math_pow clock random36
                                   ledger transaction decision) w))
         !! tx_recipient transaction = Some p
     ∧ count (transactionHistory p) = 0
     ∧ totalAmount (transactionHistory p) = 0%float
     ∧ is_nan (averageAmount (transactionHistory p)) = true
     ∧ timePattern (transactionHistory p) = sporadic
     ∧ lastInteraction p = clock (clockReads w).
Proof.
  intros Hnone Hledger.
  rewrite recipients_updateMemoryFromTransaction, recipients_updateRecipientProfile,
    Hnone, lookup_insert_eq, (history_of_nil _ _ Hledger).
  eexists. split; [reflexivity|].
  destruct (eval_buildRecipientProfile Math_pow clock ledger
              (tx_recipient transaction) [] w)
    as (_ & Hc & Ht & Ha & _ & Hp & _ & Hl).
  rewrite Hc, Ht, Ha, Hp, Hl. repeat split.
Qed.

Lemma X10_witness :
  ∃ p, recipients (memory (exec (updateMemoryFromTransaction pow_square frozen_clock
                                   fixed_random36 [tx_b] tx1 concentration_decision)
                                (new_service frozen_clock)))
         !! "0xA" = Some p
     ∧ count (transactionHistory p) = 0
     ∧ is_nan (averageAmount (transactionHistory p)) = true.
Proof.
  destruct (X10_profile_of_empty_history pow_square frozen_clock fixed_random36
              [tx_b] tx1 concentration_decision (new_service frozen_clock)
              eq_refl ltac:(repeat constructor; discriminate))
    as (p & Hp & Hc & _ & Ha & _).
  exists p. repeat split; assumption.
Defined.

(** ** Sensitivity adaptation *)

(** X11.  [adaptSensitivity] appends one adaptation event, with adjustment
    maintain on success and increase otherwise, and changes nothing else but
    learning confidences: the score, the signals, the profiles, the update
    time, and the ids, types and occurrences of the patterns stay. *)
Theorem X11_adaptSensitivity_frame
    (clock : nat → Z) (random36 : nat → string)
    (patternType : EconomicPatternType) (o : Outcome) (w : World) :
  let w' := exec (adaptSensitivity clock random36 patternType o) w in
  (∃ e, adaptations (memory w') = adaptations (memory w) ++ [e]
      ∧ ad_patternType e = patternType ∧ outcome e = o
      ∧ adjustment e = match o with success => maintain | _ => increase end)
  ∧ resilienceScore (memory w') = resilienceScore (memory w)
  ∧ signals (memory w') = signals (memory w)
  ∧ recipients (memory w') = recipients (memory w)
  ∧ lastUpdated (memory w') = lastUpdated (memory w)
  ∧ dom (patterns (memory w')) = dom (patterns (memory w))
  ∧ ∀ k, (λ p, (pat_id p, pat_type p, pat_occurrences p, pat_threatLevel p,
               pat_isActive p, pat_totalImpact p))
           <$> patterns (memory w') !! k
         = (λ p, (pat_id p, pat_type p, pat_occurrences p, pat_threatLevel p,
                  pat_isActive p, pat_totalImpact p))
           <$> patterns (memory w) !! k.
Proof.
  cbv zeta. split; [eexists; split; [reflexivity|]; cbn; auto|].
  do 4 (split; [reflexivity|]).
  rewrite patterns_adaptSensitivity. split; [apply dom_fmap_L|].
  intros k. rewrite lookup_fmap.
  destruct (patterns (memory w) !! k) as [p|]; [|reflexivity]. cbn.
  destruct (String.eqb _ _); [|reflexivity]. now destruct o.
Qed.

(** ** The purpose histogram of a profile *)

Lemma count_purpose_lookup m t s :
  s ≠ EmptyString →
  count_purpose m t !! s
  = if match tx_purpose t with Some s' => String.eqb s' s | None => false end
    then Some (S (default 0 (m !! s)))
    else m !! s.
Proof.
  intros Hs. unfold count_purpose.
  destruct (tx_purpose t) as [[|a r]|]; try reflexivity.
  - destruct (String.eqb_spec EmptyString s); [congruence|reflexivity].
  - destruct (String.eqb_spec (String a r) s) as [<-|Hne].
    + now rewrite lookup_insert_eq.
    + now rewrite lookup_insert_ne.
Qed.

Lemma fold_count_purpose_lookup transactions : ∀ m s,
  s ≠ EmptyString →
  fold_left count_purpose transactions m !! s
  = match purpose_count s transactions with
    | 0 => m !! s
    | S n => Some (default 0 (m !! s) + S n)
    end.
Proof.
  unfold purpose_count.
  induction transactions as [|t l IH]; intros m s Hs; [reflexivity|].
  cbn [fold_left List.filter]. rewrite (IH _ s Hs), (count_purpose_lookup m t s Hs).
  destruct (match tx_purpose t with Some s' => String.eqb s' s | None => false end);
    cbn [length]; destruct (length _); cbn; f_equal; lia.
Qed.

Lemma fold_count_purpose_empty_key transactions : ∀ m,
  m !! EmptyString = None →
  fold_left count_purpose transactions m !! EmptyString = None.
Proof.
  induction transactions as [|t l IH]; intros m Hm; [exact Hm|].
  cbn [fold_left]. apply IH. unfold count_purpose.
  destruct (tx_purpose t) as [[|a r]|]; try exact Hm.
  now rewrite lookup_insert_ne.
Qed.

(** X12.  The purpose histogram of a built profile maps each non-empty
    purpose to the number of transactions stating it, and has no entry for a
    purpose no transaction states nor for the empty purpose. *)
Theorem X12_purpose_histogram
    (Math_pow : float → float → float) (clock : nat → Z)
    (ledger : list Transaction) (addr : string)
    (transactions : list Transaction) (w : World) (purpose : string) :
  let p := eval (buildRecipientProfile Math_pow clock ledger addr transactions) w in
  purposes (transactionHistory p) !! purpose
  = if String.eqb purpose EmptyString then None
    else match purpose_count purpose transactions with
         | 0 => None
         | S n => Some (S n)
         end.
Proof.
  cbv zeta.
  destruct (eval_buildRecipientProfile Math_pow clock ledger addr transactions w)
    as (_ & _ & _ & _ & -> & _).
  destruct (String.eqb_spec purpose EmptyString) as [->|Hne].
  - now apply fold_count_purpose_empty_key.
  - rewrite (fold_count_purpose_lookup transactions ∅ purpose Hne).
    now destruct (purpose_count purpose transactions).
Qed.

(** ** The risk vector of a profile *)

Lemma is_nan_Math_min a b :
  is_nan (JS.Math_min a b) = false → is_nan a = false ∧ is_nan b = false.
Proof.
  unfold JS.Math_min. destruct (is_nan a), (is_nan b); cbn; try discriminate; auto.
Qed.

(** X13.  The concentration risk of a profile is 0 when the ledger's total
    spend is 0 and otherwise never above 1; the value-decline score is 0 or
    0.6, and 0 for fewer than 3 transactions. *)
Theorem X13_risk_scores_bounded
    (ledger transactions : list Transaction) (recipientTotal : float) :
  ((JS.sum_by tx_amount ledger =? 0)%float = true →
   calculateConcentrationRisk ledger recipientTotal = 0%float)
  ∧ (is_nan (calculateConcentrationRisk ledger recipientTotal) = false →
     (calculateConcentrationRisk ledger recipientTotal <=? 1)%float = true)
  ∧ (calculateValueDecline transactions = 0%float
     ∨ calculateValueDecline transactions = 0.6%float)
  ∧ (length transactions < 3 → calculateValueDecline transactions = 0%float).
Proof.
  unfold calculateConcentrationRisk, calculateValueDecline. split; [|split; [|split]].
  - now intros ->.
  - destruct (_ =? 0)%float; [reflexivity|].
    intros H. destruct (is_nan_Math_min _ _ H) as [H1 H2].
    now apply Math_min_le_l.
  - destruct (_ <? 3)%nat; [now left|]. destruct (JS.gtb _ _); auto.
  - intros H%Nat.ltb_lt. now rewrite H.
Qed.

(** ** The detectors *)

Lemma eval_push_if_detected detector detectedPatterns w :
  eval (push_if_detected detector detectedPatterns) w
  = detectedPatterns ++ option_list (eval detector w).
Proof.
  unfold push_if_detected. rewrite eval_bind, eval_ret.
  destruct (eval detector w); [reflexivity|]. now rewrite app_nil_r.
Qed.

Lemma exec_push_if_detected detector detectedPatterns w :
  exec (push_if_detected detector detectedPatterns) w = exec detector w.
Proof. unfold push_if_detected. now rewrite exec_bind, exec_ret. Qed.

Lemma detectRecurringMicroCosts_type clock newTransaction allTransactions w p :
  eval (detectRecurringMicroCosts clock newTransaction allTransactions) w = Some p →
  pat_type p = "recurring_micro_costs" ∧ pat_isActive p = true.
Proof.
  unfold detectRecurringMicroCosts.
  destruct (JS.geb _ _); [discriminate|]. destruct (_ <? 3)%nat; [discriminate|].
  rewrite !eval_bind, eval_ret. now intros [= <-].
Qed.

Lemma detectVendorConcentration_type clock newTransaction allTransactions w p :
  eval (detectVendorConcentration clock newTransaction allTransactions) w = Some p →
  pat_type p = "vendor_concentration" ∧ pat_isActive p = true.
Proof.
  unfold detectVendorConcentration.
  destruct (_ =? 0)%float; [discriminate|]. destruct (_ <? 0.3)%float; [discriminate|].
  rewrite !eval_bind, eval_ret. now intros [= <-].
Qed.

Lemma detectConvenienceBias_type clock newTransaction allTransactions w p :
  eval (detectConvenienceBias clock newTransaction allTransactions) w = Some p →
  pat_type p = "convenience_bias" ∧ pat_isActive p = true.
Proof.
  unfold detectConvenienceBias.
  destruct (_ || _); [discriminate|]. destruct (_ <? 0.6)%float; [discriminate|].
  rewrite !eval_bind, eval_ret. now intros [= <-].
Qed.

Lemma detectDecliningValue_type clock newTransaction allTransactions w p :
  eval (detectDecliningValue clock newTransaction allTransactions) w = Some p →
  pat_type p = "declining_value" ∧ pat_isActive p = true.
Proof.
  unfold detectDecliningValue.
  destruct (_ <? 4)%nat; [discriminate|]. destruct (_ <=? _)%float; [discriminate|].
  rewrite !eval_bind, eval_ret. now intros [= <-].
Qed.

(** X14.  [detectPatterns] leaves the memory as it is and returns at most
    one pattern per detector, in the order micro-costs, concentration,
    convenience, declining value, each of them active. *)
Theorem X14_detectPatterns_result
    (clock : nat → Z) (ledger : list Transaction)
    (newTransaction : Transaction) (w : World) :
  let found := eval (detectPatterns clock ledger newTransaction) w in
  memory (exec (detectPatterns clock ledger newTransaction) w) = memory w
  ∧ sublist (map pat_type found) detector_types
  ∧ Forall (λ p, pat_isActive p = true) found.
Proof.
  cbv zeta. split; [apply memory_detectPatterns|].
  unfold detectPatterns.
  rewrite !eval_bind, !eval_push_if_detected, !exec_push_if_detected.
  set (w1 := exec (detectRecurringMicroCosts _ _ _) w).
  set (w2 := exec (detectVendorConcentration _ _ _) w1).
  set (w3 := exec (detectConvenienceBias _ _ _) w2).
  pose proof (detectRecurringMicroCosts_type clock newTransaction ledger w) as H1.
  pose proof (detectVendorConcentration_type clock newTransaction ledger w1) as H2.
  pose proof (detectConvenienceBias_type clock newTransaction ledger w2) as H3.
  pose proof (detectDecliningValue_type clock newTransaction ledger w3) as H4.
  destruct (eval (detectRecurringMicroCosts _ _ _) w) as [p1|];
    [destruct (H1 p1 eq_refl) as [E1 ?]|];
    (destruct (eval (detectVendorConcentration _ _ _) w1) as [p2|];
      [destruct (H2 p2 eq_refl) as [E2 ?]|]);
    (destruct (eval (detectConvenienceBias _ _ _) w2) as [p3|];
      [destruct (H3 p3 eq_refl) as [E3 ?]|]);
    (destruct (eval (detectDecliningValue _ _ _) w3) as [p4|];
      [destruct (H4 p4 eq_refl) as [E4 ?]|]);
    cbn; rewrite ?E1, ?E2, ?E3, ?E4; (split; [|repeat constructor; assumption]).
  all: unfold detector_types.
  all: repeat first [apply sublist_nil | apply sublist_skip | apply sublist_cons].
Qed.

Lemma is_nan_Prim2SF (x : float) : is_nan x = true → Prim2SF x = S754_nan.
Proof.
  intros H. destruct (Prim2SF x) as [s|s| |s m e] eqn:E; try reflexivity;
    rewrite not_nan_is_nan in H by (rewrite E; discriminate); discriminate.
Qed.

Lemma rem_zero_not_nan (n d : float) :
  (JS.rem n d =? 0)%float = true → is_nan n = false.
Proof.
  intros H. destruct (is_nan n) eqn:E; [|reflexivity].
  apply is_nan_Prim2SF in E. unfold JS.rem in H. rewrite E in H. discriminate.
Qed.

(** The guard of [detectConvenienceBias] on the new transaction is the test
    it applies to the transactions of the ledger. *)
Lemma convenience_guard (t : Transaction) :
  negb (JS.rem (tx_amount t) 10 =? 0)%float || (tx_amount t <=? 50)%float
  = negb (is_round_amount t).
Proof.
  unfold is_round_amount, JS.gtb.
  destruct (JS.rem (tx_amount t) 10 =? 0)%float eqn:E; [|reflexivity].
  cbn. apply rem_zero_not_nan in E.
  destruct (50 <? tx_amount t)%float eqn:E50.
  - destruct (tx_amount t <=? 50)%float eqn:Ele; [|reflexivity].
    now rewrite (leb_not_ltb _ _ Ele) in E50.
  - now rewrite (not_ltb_leb 50 (tx_amount t) eq_refl E E50).
Qed.

Lemma length_slice_last {A} (n : nat) (l : list A) :
  length (JS.slice_last n l) = Nat.min n (length l).
Proof. unfold JS.slice_last. rewrite length_skipn. lia. Qed.

Lemma detectConvenienceBias_result clock newTransaction allTransactions w :
  let fired := eval (detectConvenienceBias clock newTransaction allTransactions) w in
  if is_round_amount newTransaction && negb (bias_ratio allTransactions <? 0.6)%float
  then ∃ p, fired = Some p
          ∧ pat_occurrences p
            = map (λ t, {| occ_transactionId := tx_id t;
                           occ_timestamp := tx_timestamp t;
                           occ_severity := bias_ratio allTransactions;
                           occ_context := RoundAmount (tx_amount t) |})
                  (JS.slice_last 5 (List.filter is_round_amount allTransactions))
          ∧ pat_threatLevel p
            = (if JS.gtb (bias_ratio allTransactions) 0.8 then MEDIUM else LOW)
          ∧ pat_totalImpact p
            = JS.sum_by (λ t, (tx_amount t * 0.1)%float)
                        (List.filter is_round_amount allTransactions)
  else fired = None.
Proof.
  cbv zeta. unfold detectConvenienceBias.
  rewrite convenience_guard. fold (bias_ratio allTransactions).
  destruct (is_round_amount newTransaction); [|reflexivity]. cbn [negb andb].
  destruct (bias_ratio allTransactions <? 0.6)%float; [reflexivity|]. cbn [negb].
  rewrite !eval_bind, eval_ret. eauto 10.
Qed.

(** X15.  [detectConvenienceBias] fires exactly when the new amount is a
    multiple of 10 above 50 and the share of such amounts in the ledger is
    not below 0.6; the pattern then has at most 5 occurrences, those of the
    latest round amounts of the ledger, all with the share as severity, and
    its threat level is LOW or MEDIUM. *)
Theorem X15_convenience_bias_shape
    (clock : nat → Z) (newTransaction : Transaction)
    (allTransactions : list Transaction) (w : World) :
  let fired := eval (detectConvenienceBias clock newTransaction allTransactions) w in
  (is_Some fired ↔
     is_round_amount newTransaction = true
     ∧ (bias_ratio allTransactions <? 0.6)%float = false)
  ∧ ∀ p, fired = Some p →
      length (pat_occurrences p) ≤ 5
      ∧ map occ_transactionId (pat_occurrences p)
        = map tx_id (JS.slice_last 5 (List.filter is_round_amount allTransactions))
      ∧ Forall (λ o, occ_severity o = bias_ratio allTransactions) (pat_occurrences p)
      ∧ (pat_threatLevel p = LOW ∨ pat_threatLevel p = MEDIUM).
Proof.
  cbv zeta.
  pose proof (detectConvenienceBias_result clock newTransaction allTransactions w)
    as H. cbv zeta in H.
  destruct (is_round_amount newTransaction);
    [destruct (bias_ratio allTransactions <? 0.6)%float|]; cbn [andb negb] in H.
  - rewrite H. split; [split; [intros [? [=]] | intros [_ [=]]]|]. intros p [=].
  - destruct H as (p & -> & Hocc & Hlevel & _). split; [split; eauto|].
    intros q [= <-]. rewrite Hocc, Hlevel, length_map, length_slice_last, map_map.
    split; [lia|]. split; [reflexivity|]. split.
    + apply Forall_map, Forall_forall. reflexivity.
    + destruct (JS.gtb _ _); auto.
  - rewrite H. split; [split; [intros [? [=]] | intros [[=] _]]|]. intros p [=].
Qed.

(** X16.  On an empty ledger [detectConvenienceBias] fires for every new
    amount that is a multiple of 10 above 50: the share 0/0 is NaN, which is
    not below 0.6.  The pattern has no occurrence, threat level LOW and
    total impact 0. *)
Theorem X16_convenience_bias_on_empty_ledger
    (clock : nat → Z) (newTransaction : Transaction) (w : World) :
  is_round_amount newTransaction = true →
  ∃ p, eval (detectConvenienceBias clock newTransaction []) w = Some p
     ∧ pat_occurrences p = []
     ∧ pat_threatLevel p = LOW
     ∧ pat_totalImpact p = 0%float.
Proof.
  intros Hround.
  pose proof (detectConvenienceBias_result clock newTransaction [] w) as H.
  cbv zeta in H. rewrite Hround in H.
  change (bias_ratio [] <? 0.6)%float with false in H. cbn [andb negb] in H.
  destruct H as (p & Hp & Hocc & Hlevel & Himpact). eauto.
Qed.

Lemma X16_witness :
  ∃ p, eval (detectConvenienceBias frozen_clock (payment "tx-r" 5 "0xD" 60) [])
            (new_service frozen_clock) = Some p
     ∧ pat_occurrences p = []
     ∧ pat_threatLevel p = LOW
     ∧ pat_totalImpact p = 0%float.
Proof.
  apply (X16_convenience_bias_on_empty_ledger frozen_clock
           (payment "tx-r" 5 "0xD" 60) (new_service frozen_clock)).
  vm_compute. reflexivity.
Defined.

(** ** Ordering by time *)

Lemma insert_by_timestamp_Permutation t l :
  Permutation (insert_by_timestamp t l) (t :: l).
Proof.
  induction l as [|u l IH]; [reflexivity|]. cbn.
  destruct (_ <? _)%Z; [reflexivity|].
  rewrite IH. apply perm_swap.
Qed.

Lemma insert_by_timestamp_Forall P t l :
  P t → Forall P l → Forall P (insert_by_timestamp t l).
Proof.
  intros Ht Hl. eapply Permutation_Forall.
  - symmetry. apply insert_by_timestamp_Permutation.
  - now constructor.
Qed.

Lemma insert_by_timestamp_sorted t l :
  StronglySorted not_later l → StronglySorted not_later (insert_by_timestamp t l).
Proof.
  induction 1 as [|u l Hl IH Hu]; cbn; [repeat constructor|].
  destruct (Z.ltb_spec (tx_timestamp t) (tx_timestamp u)) as [Hlt|Hge].
  - constructor; [now constructor|]. constructor; [unfold not_later; lia|].
    eapply Forall_impl; [exact Hu|]. unfold not_later. intros; lia.
  - constructor; [exact IH|]. now apply insert_by_timestamp_Forall.
Qed.

Lemma sort_by_timestamp_fold l : ∀ sorted,
  StronglySorted not_later sorted →
  StronglySorted not_later (fold_left (λ s t, insert_by_timestamp t s) l sorted)
  ∧ Permutation (fold_left (λ s t, insert_by_timestamp t s) l sorted) (sorted ++ l).
Proof.
  induction l as [|t l IH]; intros sorted Hs; cbn [fold_left].
  - split; [exact Hs|]. now rewrite app_nil_r.
  - destruct (IH _ (insert_by_timestamp_sorted t sorted Hs)) as [H1 H2].
    split; [exact H1|]. rewrite H2, insert_by_timestamp_Permutation.
    apply Permutation_middle.
Qed.

Lemma sort_by_timestamp_Permutation l : Permutation (sort_by_timestamp l) l.
Proof. exact (proj2 (sort_by_timestamp_fold l [] (SSorted_nil _))). Qed.

Lemma insert_by_timestamp_last t l :
  Forall (λ u, not_later u t) l → insert_by_timestamp t l = l ++ [t].
Proof.
  induction 1 as [|u l Hu _ IH]; [reflexivity|]. cbn.
  destruct (Z.ltb_spec (tx_timestamp t) (tx_timestamp u)) as [Hlt|_].
  - unfold not_later in Hu. lia.
  - now rewrite IH.
Qed.

Lemma sorted_prefix_not_later acc t l :
  StronglySorted not_later (acc ++ t :: l) → Forall (λ u, not_later u t) acc.
Proof.
  induction acc as [|a acc IH]; [constructor|].
  cbn. intros H. apply StronglySorted_inv in H. destruct H as [Hs Ha].
  constructor; [|now apply IH].
  apply Forall_app in Ha. destruct Ha as [_ Ha]. now inversion Ha.
Qed.

Lemma sort_by_timestamp_sorted_fold l : ∀ acc,
  StronglySorted not_later (acc ++ l) →
  fold_left (λ s t, insert_by_timestamp t s) l acc = acc ++ l.
Proof.
  induction l as [|t l IH]; intros acc Hs; cbn [fold_left].
  - now rewrite app_nil_r.
  - rewrite (insert_by_timestamp_last t acc (sorted_prefix_not_later _ _ _ Hs)).
    rewrite IH; rewrite <- app_assoc; [reflexivity | exact Hs].
Qed.

(** X17.  The list [detectDecliningValue] works on holds the same
    transactions as the counterparty's history, is in non-decreasing order of
    time, and is the history itself when that is already in time order. *)
Theorem X17_sort_by_timestamp_sorts (l : list Transaction) :
  Permutation (sort_by_timestamp l) l
  ∧ StronglySorted not_later (sort_by_timestamp l)
  ∧ (StronglySorted not_later l → sort_by_timestamp l = l).
Proof.
  split; [apply sort_by_timestamp_Permutation|]. split.
  - exact (proj1 (sort_by_timestamp_fold l [] (SSorted_nil _))).
  - intros Hs. exact (sort_by_timestamp_sorted_fold l [] Hs).
Qed.

Lemma detectDecliningValue_result clock newTransaction allTransactions w :
  let recipientTxs :=
    sort_by_timestamp (history_of (tx_recipient newTransaction) allTransactions) in
  let recentAvg := (JS.sum_by tx_amount (JS.slice_last 2 recipientTxs) / 2)%float in
  let earlierAvg := (JS.sum_by tx_amount (take 2 recipientTxs) / 2)%float in
  let fired := eval (detectDecliningValue clock newTransaction allTransactions) w in
  if (length recipientTxs <? 4)%nat then fired = None
  else if (recentAvg <=? earlierAvg * 1.2)%float then fired = None
  else ∃ p, fired = Some p
          ∧ pat_occurrences p
            = map (λ t, {| occ_transactionId := tx_id t;
                           occ_timestamp := tx_timestamp t;
                           occ_severity := (tx_amount t / earlierAvg)%float;
                           occ_context := AmountVsEarlierAvg (tx_amount t) earlierAvg |})
                  (JS.slice_last 3 recipientTxs)
          ∧ pat_threatLevel p
            = (if JS.gtb recentAvg (earlierAvg * 1.5) then HIGH else MEDIUM)
          ∧ pat_totalImpact p = (recentAvg - earlierAvg)%float.
Proof.
  cbv zeta. unfold detectDecliningValue.
  change (List.filter (λ t, same_recipient t newTransaction) allTransactions)
    with (history_of (tx_recipient newTransaction) allTransactions).
  destruct (_ <? 4)%nat; [reflexivity|].
  destruct (_ <=? _)%float; [reflexivity|].
  rewrite !eval_bind, eval_ret. eauto 10.
Qed.

(** X18.  [detectDecliningValue] never fires for a counterparty with fewer
    than 4 transactions in the ledger; a pattern it returns has exactly 3
    occurrences, those of the counterparty's three latest transactions in
    time order, and threat level MEDIUM or HIGH. *)
Theorem X18_declining_value_shape
    (clock : nat → Z) (newTransaction : Transaction)
    (allTransactions : list Transaction) (w : World) :
  let history := history_of (tx_recipient newTransaction) allTransactions in
  let fired := eval (detectDecliningValue clock newTransaction allTransactions) w in
  (length history < 4 → fired = None)
  ∧ ∀ p, fired = Some p →
      4 ≤ length history
      ∧ length (pat_occurrences p) = 3
      ∧ map occ_transactionId (pat_occurrences p)
        = map tx_id (JS.slice_last 3 (sort_by_timestamp history))
      ∧ (pat_threatLevel p = MEDIUM ∨ pat_threatLevel p = HIGH).
Proof.
  cbv zeta.
  pose proof (detectDecliningValue_result clock newTransaction allTransactions w)
    as H. cbv zeta in H.
  assert (length (sort_by_timestamp
                    (history_of (tx_recipient newTransaction) allTransactions))
          = length (history_of (tx_recipient newTransaction) allTransactions)) as Hlen
    by apply Permutation_length, sort_by_timestamp_Permutation.
  rewrite Hlen in H.
  destruct (Nat.ltb_spec (length (history_of (tx_recipient newTransaction)
                                    allTransactions)) 4) as [Hlt|Hge].
  - rewrite H. split; [reflexivity|]. intros p [=].
  - split; [lia|]. destruct (_ <=? _)%float.
    + rewrite H. intros p [=].
    + destruct H as (p & -> & Hocc & Hlevel & _). intros q [= <-].
      rewrite Hocc, Hlevel, length_map, length_slice_last, map_map, Hlen.
      split; [exact Hge|]. split; [lia|]. split; [reflexivity|].
      destruct (JS.gtb _ _); auto.
Qed.

(** * The data store *)

Lemma JSMap_get_set_eq {V} k (v : V) m : JSMap.get k (JSMap.set k v m) = Some v.
Proof.
  induction m as [|[k' v'] m IH]; cbn.
  - now rewrite String.eqb_refl.
  - destruct (String.eqb k' k) eqn:E; cbn; [now rewrite String.eqb_refl|].
    now rewrite E.
Qed.

Lemma JSMap_get_set_ne {V} k k' (v : V) m :
  k' ≠ k → JSMap.get k' (JSMap.set k v m) = JSMap.get k' m.
Proof.
  intros Hne. induction m as [|[k0 v0] m IH]; cbn.
  - destruct (String.eqb_spec k k'); [congruence|reflexivity].
  - destruct (String.eqb_spec k0 k) as [->|Hk0]; cbn.
    + destruct (String.eqb_spec k k'); [congruence|reflexivity].
    + now rewrite IH.
Qed.

Lemma JSMap_keys_set {V} k (v : V) m :
  JSMap.keys (JSMap.set k v m)
  = if JSMap.has k m then JSMap.keys m else JSMap.keys m ++ [k].
Proof.
  unfold JSMap.has, JSMap.keys.
  induction m as [|[k' v'] m IH]; cbn; [reflexivity|].
  destruct (String.eqb_spec k' k) as [->|Hne]; cbn; [reflexivity|].
  rewrite IH. now destruct (JSMap.get k m).
Qed.

Lemma JSMap_values_set_new {V} k (v : V) m :
  JSMap.get k m = None → JSMap.values (JSMap.set k v m) = JSMap.values m ++ [v].
Proof.
  unfold JSMap.values. induction m as [|[k' v'] m IH]; cbn; [reflexivity|].
  destruct (String.eqb k' k); [discriminate|]. intros H. cbn. now rewrite IH.
Qed.

Lemma JSMap_get_None_keys {V} k (m : list (string * V)) :
  JSMap.get k m = None ↔ k ∉ JSMap.keys m.
Proof.
  unfold JSMap.keys. induction m as [|[k' v'] m IH]; cbn.
  - split; [intros _; apply not_elem_of_nil | reflexivity].
  - rewrite not_elem_of_cons.
    destruct (String.eqb_spec k' k) as [->|Hne].
    + split; [discriminate | intros [? _]; congruence].
    + rewrite IH. split; [intros ?; split; [congruence|assumption] | tauto].
Qed.

Lemma JSMap_delete_absent {V} k (m : list (string * V)) :
  JSMap.get k m = None → JSMap.delete k m = m.
Proof.
  induction m as [|[k' v'] m IH]; cbn; [reflexivity|].
  destruct (String.eqb k' k); [discriminate|]. intros H. now rewrite IH.
Qed.

Lemma JSMap_keys_delete_incl {V} k (m : list (string * V)) k' :
  k' ∈ JSMap.keys (JSMap.delete k m) → k' ∈ JSMap.keys m.
Proof.
  unfold JSMap.keys. induction m as [|[k0 v0] m IH]; cbn; [tauto|].
  destruct (String.eqb k0 k); cbn; rewrite !elem_of_cons; [tauto|].
  intros [?|?]; auto.
Qed.

Lemma JSMap_get_delete_eq {V} k (m : list (string * V)) :
  NoDup (JSMap.keys m) → JSMap.get k (JSMap.delete k m) = None.
Proof.
  induction m as [|[k' v'] m IH]; cbn; [reflexivity|].
  intros Hnd. apply NoDup_cons in Hnd. destruct Hnd as [Hnot Hnd].
  destruct (String.eqb_spec k' k) as [->|Hne].
  - now apply JSMap_get_None_keys.
  - cbn. destruct (String.eqb_spec k' k); [congruence|]. now apply IH.
Qed.

Lemma JSMap_get_delete_ne {V} k k' (m : list (string * V)) :
  k' ≠ k → JSMap.get k' (JSMap.delete k m) = JSMap.get k' m.
Proof.
  intros Hne. induction m as [|[k0 v0] m IH]; cbn; [reflexivity|].
  destruct (String.eqb_spec k0 k) as [->|Hk0]; cbn.
  - destruct (String.eqb_spec k k'); [congruence|reflexivity].
  - now rewrite IH.
Qed.

Lemma JSMap_length_delete {V} k (m : list (string * V)) :
  length (JSMap.delete k m) = if JSMap.has k m then pred (length m) else length m.
Proof.
  unfold JSMap.has. induction m as [|[k' v'] m IH]; cbn; [reflexivity|].
  destruct (String.eqb k' k); cbn; [reflexivity|]. rewrite IH.
  destruct (JSMap.get k m) eqn:E; [|reflexivity].
  destruct m; [discriminate|reflexivity].
Qed.

Lemma JSMap_NoDup_delete {V} k (m : list (string * V)) :
  NoDup (JSMap.keys m) → NoDup (JSMap.keys (JSMap.delete k m)).
Proof.
  induction m as [|[k' v'] m IH]; cbn; [auto|].
  intros Hnd. apply NoDup_cons in Hnd. destruct Hnd as [Hnot Hnd].
  destruct (String.eqb k' k); [exact Hnd|]. cbn. apply NoDup_cons.
  split; [|now apply IH]. intros Hin. apply Hnot.
  now apply JSMap_keys_delete_incl in Hin.
Qed.

Lemma JSMap_NoDup_set {V} k (v : V) m :
  NoDup (JSMap.keys m) → NoDup (JSMap.keys (JSMap.set k v m)).
Proof.
  intros Hnd. rewrite JSMap_keys_set. unfold JSMap.has.
  destruct (JSMap.get k m) eqn:E; [exact Hnd|].
  apply NoDup_app. split; [exact Hnd|]. split; [|apply NoDup_singleton].
  intros x Hx Hx1. apply list_elem_of_singleton in Hx1. subst x.
  now apply JSMap_get_None_keys in E.
Qed.

Lemma JSMap_Forall_set {V} (P : string * V → Prop) k (v : V) m :
  P (k, v) → Forall P m → Forall P (JSMap.set k v m).
Proof.
  intros Hv. induction 1 as [|[k' v'] m Hx Hm IH]; cbn; [repeat constructor; exact Hv|].
  destruct (String.eqb k' k); constructor; assumption.
Qed.

Lemma JSMap_Forall_delete {V} (P : string * V → Prop) k (m : list (string * V)) :
  Forall P m → Forall P (JSMap.delete k m).
Proof.
  induction 1 as [|[k' v'] m Hx Hm IH]; cbn; [constructor|].
  destruct (String.eqb k' k); [exact Hm|]. now constructor.
Qed.

Lemma JSMap_get_Forall {V} (P : string * V → Prop) k (m : list (string * V)) v :
  Forall P m → JSMap.get k m = Some v → P (k, v).
Proof.
  induction 1 as [|[k' v'] m Hx Hm IH]; cbn; [discriminate|].
  destruct (String.eqb_spec k' k) as [->|Hne]; [|exact IH].
  now intros [= <-].
Qed.

(** X19.  A transaction saved is the transaction [getTransaction] returns for
    its id, [saveTransaction] returns its argument, and the transactions
    under other ids are as before. *)
Theorem X19_save_then_get {Decision : Type}
    (transaction : DataStore.TransactionRecord Decision)
    (s : DataStore.Store Decision) :
  let s' := snd (DataStore.saveTransaction transaction s) in
  fst (DataStore.saveTransaction transaction s) = transaction
  ∧ DataStore.getTransaction (DataStore.id transaction) s' = Some transaction
  ∧ ∀ other, other ≠ DataStore.id transaction →
      DataStore.getTransaction other s' = DataStore.getTransaction other s.
Proof.
  cbv zeta. unfold DataStore.getTransaction. cbn. split; [reflexivity|]. split.
  - apply JSMap_get_set_eq.
  - intros other Hne. now apply JSMap_get_set_ne.
Qed.

(** X20.  [saveTransaction] under a new id puts the transaction last in
    [getAllTransactions], so the ledger is in order of first insertion; under
    an id already stored it replaces the transaction in place, and the ids
    and their order stay. *)
Theorem X20_save_keeps_insertion_order {Decision : Type}
    (transaction : DataStore.TransactionRecord Decision)
    (s : DataStore.Store Decision) :
  let s' := snd (DataStore.saveTransaction transaction s) in
  match DataStore.getTransaction (DataStore.id transaction) s with
  | None =>
      DataStore.getAllTransactions s' = DataStore.getAllTransactions s ++ [transaction]
  | Some _ =>
      JSMap.keys (DataStore.transactions s') = JSMap.keys (DataStore.transactions s)
      ∧ length (DataStore.getAllTransactions s')
        = length (DataStore.getAllTransactions s)
  end.
Proof.
  cbv zeta. unfold DataStore.getTransaction, DataStore.getAllTransactions. cbn.
  destruct (JSMap.get _ _) eqn:E.
  - assert (JSMap.keys (JSMap.set (DataStore.id transaction) transaction
                          (DataStore.transactions s))
            = JSMap.keys (DataStore.transactions s)) as Hk
      by (rewrite JSMap_keys_set; unfold JSMap.has; now rewrite E).
    split; [exact Hk|].
    unfold JSMap.values. rewrite !length_map.
    apply (f_equal length) in Hk. unfold JSMap.keys in Hk.
    now rewrite !length_map in Hk.
  - now apply JSMap_values_set_new.
Qed.

(** X21.  [updateTransaction] for an id that is not stored returns nothing
    and leaves the store as it is; for a stored id it returns the stored
    transaction with the update's properties written over it, stores that,
    and keeps the ids, their order and every other transaction. *)
Theorem X21_update_transaction {Decision : Type}
    (key : string) (updates : DataStore.TransactionUpdates Decision)
    (s : DataStore.Store Decision) :
  let result := fst (DataStore.updateTransaction key updates s) in
  let s' := snd (DataStore.updateTransaction key updates s) in
  match DataStore.getTransaction key s with
  | None => result = None ∧ s' = s
  | Some existing =>
      result = Some (DataStore.spread existing updates)
      ∧ DataStore.getTransaction key s' = Some (DataStore.spread existing updates)
      ∧ JSMap.keys (DataStore.transactions s') = JSMap.keys (DataStore.transactions s)
      ∧ ∀ other, other ≠ key →
          DataStore.getTransaction other s' = DataStore.getTransaction other s
  end.
Proof.
  cbv zeta. unfold DataStore.updateTransaction, DataStore.getTransaction.
  destruct (JSMap.get key (DataStore.transactions s)) as [existing|] eqn:E;
    cbn [fst snd DataStore.transactions DataStore.set_transactions].
  - split; [reflexivity|]. split; [apply JSMap_get_set_eq|]. split.
    + rewrite JSMap_keys_set. unfold JSMap.has. now rewrite E.
    + intros other Hne. now apply JSMap_get_set_ne.
  - now split.
Qed.

(** X22.  [deleteTransaction] tells whether the id was stored; afterwards the
    id is not stored, the other transactions are as before, and the number of
    transactions is one less exactly when it was stored. *)
Theorem X22_delete_transaction {Decision : Type}
    (key : string) (s : DataStore.Store Decision) :
  DataStore.well_keyed s →
  let deleted := fst (DataStore.deleteTransaction key s) in
  let s' := snd (DataStore.deleteTransaction key s) in
  (deleted = true ↔ is_Some (DataStore.getTransaction key s))
  ∧ DataStore.getTransaction key s' = None
  ∧ (∀ other, other ≠ key →
       DataStore.getTransaction other s' = DataStore.getTransaction other s)
  ∧ length (DataStore.getAllTransactions s')
    = (if deleted then pred (length (DataStore.getAllTransactions s))
       else length (DataStore.getAllTransactions s))
  ∧ (deleted = false → s' = s).
Proof.
  intros [Hnd _]. cbv zeta.
  unfold DataStore.deleteTransaction, DataStore.getTransaction,
    DataStore.getAllTransactions.
  cbn [fst snd DataStore.transactions DataStore.set_transactions]. repeat split.
  - unfold JSMap.has. destruct (JSMap.get _ _); [eauto | discriminate].
  - unfold JSMap.has. intros [v ->]. reflexivity.
  - now apply JSMap_get_delete_eq.
  - intros other Hne. now apply JSMap_get_delete_ne.
  - unfold JSMap.values. rewrite !length_map. apply JSMap_length_delete.
  - unfold JSMap.has. destruct (JSMap.get _ _) eqn:E; [discriminate|]. intros _.
    rewrite (JSMap_delete_absent _ _ E). now destruct s.
Qed.

Lemma well_keyed_empty {Decision : Type} :
  DataStore.well_keyed (DataStore.empty (Decision := Decision)).
Proof. split; [apply NoDup_nil_2 | constructor]. Qed.

Lemma well_keyed_save {Decision : Type}
    (transaction : DataStore.TransactionRecord Decision) s :
  DataStore.well_keyed s →
  DataStore.well_keyed (snd (DataStore.saveTransaction transaction s)).
Proof.
  intros [Hnd Hid]. split; cbn [snd DataStore.saveTransaction
                                  DataStore.transactions DataStore.set_transactions].
  - now apply JSMap_NoDup_set.
  - now apply JSMap_Forall_set.
Qed.

Lemma well_keyed_delete {Decision : Type} key (s : DataStore.Store Decision) :
  DataStore.well_keyed s →
  DataStore.well_keyed (snd (DataStore.deleteTransaction key s)).
Proof.
  intros [Hnd Hid]. split; cbn [snd DataStore.deleteTransaction
                                  DataStore.transactions DataStore.set_transactions].
  - now apply JSMap_NoDup_delete.
  - now apply JSMap_Forall_delete.
Qed.

Lemma well_keyed_update {Decision : Type} key
    (updates : DataStore.TransactionUpdates Decision) s :
  DataStore.well_keyed s →
  DataStore.new_id updates = None →
  DataStore.well_keyed (snd (DataStore.updateTransaction key updates s)).
Proof.
  intros [Hnd Hid] Hnew. unfold DataStore.updateTransaction.
  destruct (JSMap.get key (DataStore.transactions s)) as [existing|] eqn:E;
    [|now split].
  split; cbn [snd DataStore.transactions DataStore.set_transactions].
  - now apply JSMap_NoDup_set.
  - apply JSMap_Forall_set; [|exact Hid]. cbn. rewrite Hnew. cbn.
    exact (JSMap_get_Forall _ _ _ _ Hid E).
Qed.

Lemma sample_store_well_keyed : DataStore.well_keyed sample_store.
Proof. do 2 apply well_keyed_save. apply well_keyed_empty. Qed.

Lemma X22_witness :
  fst (DataStore.deleteTransaction "tx-1" sample_store) = true
  ∧ DataStore.getTransaction "tx-1"
      (snd (DataStore.deleteTransaction "tx-1" sample_store)) = None
  ∧ length (DataStore.getAllTransactions
              (snd (DataStore.deleteTransaction "tx-1" sample_store))) = 1.
Proof.
  destruct (X22_delete_transaction "tx-1" sample_store sample_store_well_keyed)
    as (_ & Hget & _ & Hlen & _).
  split; [reflexivity|]. split; [exact Hget | exact Hlen].
Defined.

Lemma well_keyed_ids {Decision : Type} (s : DataStore.Store Decision) :
  DataStore.well_keyed s →
  map DataStore.id (DataStore.getAllTransactions s)
  = JSMap.keys (DataStore.transactions s).
Proof.
  intros [_ Hid]. unfold DataStore.getAllTransactions, JSMap.values, JSMap.keys.
  rewrite map_map. apply map_ext_Forall. exact Hid.
Qed.

(** X23.  The store keeps every transaction under the id it carries and no
    id twice: this holds of the empty store and is kept by [saveTransaction],
    by [deleteTransaction] and by every [updateTransaction] whose update has
    no [id]; the ids [getAllTransactions] lists are then distinct.  An update
    that carries another id breaks it: the transaction stays under its old
    key. *)
Theorem X23_store_well_keyed {Decision : Type}
    (transaction : DataStore.TransactionRecord Decision) (key : string)
    (updates : DataStore.TransactionUpdates Decision)
    (s : DataStore.Store Decision) :
  DataStore.well_keyed (DataStore.empty (Decision := Decision))
  ∧ (DataStore.well_keyed s →
     DataStore.well_keyed (snd (DataStore.saveTransaction transaction s))
     ∧ DataStore.well_keyed (snd (DataStore.deleteTransaction key s))
     ∧ (DataStore.new_id updates = None →
        DataStore.well_keyed (snd (DataStore.updateTransaction key updates s)))
     ∧ NoDup (map DataStore.id (DataStore.getAllTransactions s))
     ∧ ∀ other, DataStore.new_id updates = Some other → other ≠ key →
         is_Some (DataStore.getTransaction key s) →
         ¬ DataStore.well_keyed (snd (DataStore.updateTransaction key updates s))).
Proof.
  split; [apply well_keyed_empty|]. intros Hs.
  split; [now apply well_keyed_save|]. split; [now apply well_keyed_delete|].
  split; [now apply well_keyed_update|]. split.
  - rewrite (well_keyed_ids s Hs). exact (proj1 Hs).
  - intros other Hnew Hne [existing He] [_ Hid].
    unfold DataStore.getTransaction in He.
    unfold DataStore.updateTransaction in Hid. rewrite He in Hid.
    cbn [snd DataStore.transactions DataStore.set_transactions] in Hid.
    assert (JSMap.get key (JSMap.set key (DataStore.spread existing updates)
                             (DataStore.transactions s))
            = Some (DataStore.spread existing updates)) as Hget
      by apply JSMap_get_set_eq.
    pose proof (JSMap_get_Forall _ _ _ _ Hid Hget) as Hbad. cbn in Hbad.
    rewrite Hnew in Hbad. cbn in Hbad. congruence.
Qed.

Lemma filter_partition {A} (p1 p2 p3 : A → bool) (l : list A) :
  (∀ x, (if p1 x then 1 else 0) + (if p2 x then 1 else 0) + (if p3 x then 1 else 0)
        = 1) →
  length l
  = length (List.filter p1 l) + length (List.filter p2 l) + length (List.filter p3 l).
Proof.
  intros H. induction l as [|x l IH]; [reflexivity|].
  cbn [List.filter length]. specialize (H x).
  destruct (p1 x), (p2 x), (p3 x); cbn [length]; lia.
Qed.

(** X24.  In the statistics of the store every transaction is counted
    once: the total is the sum of the completed, the pending (pending or
    confirming) and the failed ones. *)
Theorem X24_stats_add_up {Decision : Type} (s : DataStore.Store Decision) :
  DataStore.totalTransactions (DataStore.getStats s)
  = DataStore.completedTransactions (DataStore.getStats s)
    + DataStore.pendingTransactions (DataStore.getStats s)
    + DataStore.failedTransactions (DataStore.getStats s).
Proof.
  apply filter_partition. intros tx. unfold DataStore.has_status.
  now destruct (DataStore.status tx).
Qed.

(** X25.  A proposal marked pending is pending until it is cleared, marking
    or clearing one key changes no other key, marking twice is marking once,
    and neither touches the transactions. *)
Theorem X25_pending_proposals {Decision : Type}
    (proposalKey other : string) (s : DataStore.Store Decision) :
  DataStore.isProposalPending proposalKey
    (DataStore.markProposalPending proposalKey s) = true
  ∧ DataStore.isProposalPending proposalKey
      (DataStore.clearProposalPending proposalKey s) = false
  ∧ (other ≠ proposalKey →
     DataStore.isProposalPending other (DataStore.markProposalPending proposalKey s)
     = DataStore.isProposalPending other s
     ∧ DataStore.isProposalPending other (DataStore.clearProposalPending proposalKey s)
       = DataStore.isProposalPending other s)
  ∧ DataStore.markProposalPending proposalKey
      (DataStore.markProposalPending proposalKey s)
    = DataStore.markProposalPending proposalKey s
  ∧ DataStore.transactions (DataStore.markProposalPending proposalKey s)
    = DataStore.transactions s
  ∧ DataStore.transactions (DataStore.clearProposalPending proposalKey s)
    = DataStore.transactions s.
Proof.
  unfold DataStore.isProposalPending, DataStore.markProposalPending,
    DataStore.clearProposalPending, DataStore.set_pendingProposals.
  cbn. repeat split.
  - apply bool_decide_eq_true, elem_of_union_l. now apply elem_of_singleton.
  - apply bool_decide_eq_false. rewrite elem_of_difference, elem_of_singleton.
    tauto.
  - apply bool_decide_ext. rewrite elem_of_union, elem_of_singleton. tauto.
  - apply bool_decide_ext. rewrite elem_of_difference, elem_of_singleton. tauto.
  - f_equal. apply leibniz_equiv. intros x.
    rewrite !elem_of_union, elem_of_singleton. tauto.
Qed.

Lemma JSMap_length_set {V} k (v : V) m :
  length (JSMap.set k v m) = if JSMap.has k m then length m else S (length m).
Proof.
  unfold JSMap.has. induction m as [|[k' v'] m IH]; cbn; [reflexivity|].
  destruct (String.eqb k' k); cbn; [reflexivity|]. rewrite IH.
  now destruct (JSMap.get k m).
Qed.

(** X26.  A decision saved is the decision [getDecision] returns for its
    request id, [saveDecision] returns its argument, the decisions of other
    requests and the transactions are as before, and the statistics count
    one decision more exactly when the request had none. *)
Theorem X26_save_decision_then_get {Decision : Type}
    (rid : string) (d : Decision) (s : DataStore.Store Decision) :
  let s' := snd (DataStore.saveDecision rid d s) in
  fst (DataStore.saveDecision rid d s) = d
  ∧ DataStore.getDecision rid s' = Some d
  ∧ (∀ other, other ≠ rid →
       DataStore.getDecision other s' = DataStore.getDecision other s)
  ∧ DataStore.getAllTransactions s' = DataStore.getAllTransactions s
  ∧ DataStore.totalDecisions (DataStore.getStats s')
    = match DataStore.getDecision rid s with
      | Some _ => DataStore.totalDecisions (DataStore.getStats s)
      | None => S (DataStore.totalDecisions (DataStore.getStats s))
      end.
Proof.
  cbv zeta. unfold DataStore.getDecision, DataStore.getStats. cbn.
  repeat split.
  - apply JSMap_get_set_eq.
  - intros other Hne. now apply JSMap_get_set_ne.
  - rewrite JSMap_length_set. unfold JSMap.has.
    now destruct (JSMap.get rid (DataStore.decisions s)).
Qed.

Lemma find_by_request_id_set {Decision : Type}
    (transaction : DataStore.TransactionRecord Decision)
    (m : list (string * DataStore.TransactionRecord Decision)) :
  Forall (λ entry, DataStore.id (snd entry) = fst entry) m →
  Forall (λ t, DataStore.id t ≠ DataStore.id transaction →
               DataStore.requestId t ≠ DataStore.requestId transaction)
         (JSMap.values m) →
  List.find (λ tx, String.eqb (DataStore.requestId tx)
                              (DataStore.requestId transaction))
            (JSMap.values (JSMap.set (DataStore.id transaction) transaction m))
  = Some transaction.
Proof.
  unfold JSMap.values.
  induction m as [|[k' v'] m IH]; cbn; intros Hid Hreq.
  - now rewrite String.eqb_refl.
  - apply Forall_cons in Hid. destruct Hid as [Hk Hid]. cbn in Hk.
    apply Forall_cons in Hreq. destruct Hreq as [Hv Hreq].
    destruct (String.eqb_spec k' (DataStore.id transaction)) as [->|Hne]; cbn.
    + now rewrite String.eqb_refl.
    + destruct (String.eqb_spec (DataStore.requestId v')
                                (DataStore.requestId transaction)) as [E|_].
      * exfalso. apply Hv; [congruence | exact E].
      * now apply IH.
Qed.

(** X27.  [getTransactionByRequestId] returns nothing exactly when no stored
    transaction has the request id.  A transaction saved is the one it
    returns for the transaction's request id, when no transaction stored
    under another id has that request id. *)
Theorem X27_save_then_find_by_request_id {Decision : Type}
    (transaction : DataStore.TransactionRecord Decision)
    (s : DataStore.Store Decision) :
  DataStore.well_keyed s →
  Forall (λ t, DataStore.id t ≠ DataStore.id transaction →
               DataStore.requestId t ≠ DataStore.requestId transaction)
         (DataStore.getAllTransactions s) →
  DataStore.getTransactionByRequestId (DataStore.requestId transaction)
    (snd (DataStore.saveTransaction transaction s)) = Some transaction
  ∧ ∀ rid, DataStore.getTransactionByRequestId rid s = None
           ↔ Forall (λ t, DataStore.requestId t ≠ rid)
                    (DataStore.getAllTransactions s).
Proof.
  intros [_ Hid] Hreq. split.
  - now apply find_by_request_id_set.
  - intros rid. unfold DataStore.getTransactionByRequestId, DataStore.getAllTransactions.
    induction (JSMap.values (DataStore.transactions s)) as [|t l IH]; cbn.
    + split; [constructor | reflexivity].
    + destruct (String.eqb_spec (DataStore.requestId t) rid) as [E|Hne].
      * split; [discriminate|]. intros H. apply Forall_cons in H. tauto.
      * rewrite IH. split; [now constructor|].
        intros H. apply Forall_cons in H. tauto.
Qed.

Lemma X27_witness :
  DataStore.getTransactionByRequestId "req-tx-3"
    (snd (DataStore.saveTransaction (sample_record "tx-3" DataStore.Failed)
            sample_store))
  = Some (sample_record "tx-3" DataStore.Failed).
Proof.
  refine (proj1 (X27_save_then_find_by_request_id
                   (sample_record "tx-3" DataStore.Failed) sample_store
                   sample_store_well_keyed _)).
  repeat constructor; vm_compute; intros _ H; discriminate H.
Defined.

(** ** The evaluation context *)

Lemma memory_filterM {A} (p : A → M bool) (l : list A) w :
  (∀ x w', memory (exec (p x) w') = memory w') →
  memory (exec (InsightsService.filterM p l) w) = memory w.
Proof.
  intros Hp. revert w. induction l as [|x l IH]; intros w; cbn; [reflexivity|].
  rewrite !exec_bind, exec_ret, IH. apply Hp.
Qed.

Lemma zero_share_not_above (t : float) : JS.gtb (0 / t) 0.3 = false.
Proof.
  unfold JS.gtb. rewrite FloatAxioms.ltb_spec, FloatAxioms.div_spec.
  change (Prim2SF 0) with (S754_zero false).
  now destruct (Prim2SF t) as [[]|[]| |[] ? ?].
Qed.

Lemma ltb_not_eqb (x y : float) : (x <? y)%float = true → (y =? x)%float = false.
Proof.
  rewrite FloatAxioms.ltb_spec, FloatAxioms.eqb_spec. unfold SFltb, SFeqb.
  rewrite (SFcompare_antisym (Prim2SF x) (Prim2SF y)).
  now destruct (SFcompare (Prim2SF x) (Prim2SF y)) as [[]|].
Qed.

(** What [buildImmuneContext] returns: the labels in the order of its three
    checks, one reference per label. *)
Lemma buildImmuneContext_result clock ledger recipient amount purpose w :
  let ctx := eval (InsightsService.buildImmuneContext clock ledger recipient
                     amount purpose) w in
  let total := JS.sum_by tx_amount ledger in
  let spent := JS.sum_by tx_amount (history_of recipient ledger) in
  ∃ micro convenience : bool,
    InsightsService.detectedPatterns ctx
    = (if micro then ["recurring_micro_costs"] else [])
      ++ (if JS.gtb total 0 && JS.gtb (spent / total) 0.3
          then ["vendor_concentration"] else [])
      ++ (if convenience then ["convenience_bias"] else [])
    ∧ length (InsightsService.memoryReferences ctx)
      = length (InsightsService.detectedPatterns ctx)
    ∧ (micro = true →
       (amount <? 50)%float = true ∧ 3 ≤ length (history_of recipient ledger))
    ∧ (convenience = true → InsightsService.is_round_over_100 amount = true).
Proof.
  cbv zeta. unfold InsightsService.buildImmuneContext, history_of.
  rewrite eval_bind, eval_ret.
  cbn [InsightsService.detectedPatterns InsightsService.memoryReferences].
  set (history := List.filter _ ledger).
  set (micro := eval _ w).
  assert (Hm : ∃ b : bool,
            fst micro = (if b then ["recurring_micro_costs"] else [])
            ∧ length (snd micro) = length (fst micro)
            ∧ (b = true → (amount <? 50)%float = true ∧ 3 ≤ length history)).
  { subst micro.
    destruct (amount <? 50)%float; cbn [andb];
      [|exists false; repeat split; discriminate].
    destruct (3 <=? length history)%nat eqn:E3;
      [|exists false; repeat split; discriminate].
    apply Nat.leb_le in E3. rewrite eval_bind, eval_ret.
    destruct (3 <=? length (eval _ w))%nat;
      [exists true | exists false]; repeat split; try discriminate.
    exact E3. }
  destruct Hm as (b1 & Hfst & Hlen & Hb1).
  exists b1.
  set (vendor := JS.gtb (JS.sum_by tx_amount ledger) 0 && _).
  destruct (InsightsService.is_round_over_100 amount) eqn:Hround.
  - match goal with
    | |- context [if JS.gtb ?a ?b then (_, [InsightsService.PercentRoundAmounts _])
                  else _] => destruct (JS.gtb a b)
    end; [exists true | exists false];
      (split; [rewrite Hfst; now destruct vendor|]);
      (split; [rewrite !length_app, Hlen; now destruct vendor|]);
      (split; [exact Hb1 | auto]).
  - exists false.
    split; [rewrite Hfst; now destruct vendor|].
    split; [rewrite !length_app, Hlen; now destruct vendor|].
    split; [exact Hb1 | auto].
Qed.

Lemma history_of_nil_inv addr ledger :
  history_of addr ledger = [] → Forall (λ t, tx_recipient t ≠ addr) ledger.
Proof.
  induction ledger as [|t l IH]; cbn; [constructor|].
  destruct (String.eqb_spec (tx_recipient t) addr); [discriminate|].
  intros H. constructor; auto.
Qed.

Lemma label_in_choice (label a b c : string) (x y z : bool) :
  label ≠ a → label ≠ c →
  label ∈ (if x then [a] else []) ++ (if y then [b] else []) ++ (if z then [c] else []) →
  y = true.
Proof.
  intros Ha Hc. rewrite !elem_of_app. intros [H|[H|H]].
  - destruct x; [apply list_elem_of_singleton in H; contradiction|].
    now apply elem_of_nil in H.
  - destruct y; [reflexivity | now apply elem_of_nil in H].
  - destruct z; [apply list_elem_of_singleton in H; contradiction|].
    now apply elem_of_nil in H.
Qed.

(** X28.  Whenever [buildImmuneContext] lists vendor concentration for a
    counterparty, its share of the ledger's spend is strictly above 0.3 and
    [detectVendorConcentration] fires for a transaction to it on the same
    ledger. *)
Theorem X28_context_flag_implies_detector
    (clock clock' : nat → Z) (ledger : list Transaction)
    (newTransaction : Transaction) (amount : float) (purpose : option string)
    (w w' : World) :
  "vendor_concentration"
    ∈ InsightsService.detectedPatterns
        (eval (InsightsService.buildImmuneContext clock ledger
                 (tx_recipient newTransaction) amount purpose) w) →
  (0.3 <? spend_share newTransaction ledger)%float = true
  ∧ is_Some (eval (detectVendorConcentration clock' newTransaction ledger) w').
Proof.
  intros Hin.
  destruct (buildImmuneContext_result clock ledger (tx_recipient newTransaction)
              amount purpose w) as (b1 & b3 & Hpat & _).
  rewrite Hpat in Hin. apply label_in_choice in Hin; [|discriminate|discriminate].
  apply andb_prop in Hin. destruct Hin as [Htotal Hshare].
  unfold JS.gtb in Htotal, Hshare.
  change (JS.sum_by tx_amount (history_of (tx_recipient newTransaction) ledger)
          / JS.sum_by tx_amount ledger)%float
    with (spend_share newTransaction ledger) in Hshare.
  split; [exact Hshare|].
  pose proof (detectVendorConcentration_result clock' newTransaction ledger w') as H.
  cbv zeta in H.
  rewrite (ltb_not_eqb _ _ Htotal), (leb_not_ltb _ _ (ltb_leb _ _ Hshare)) in H.
  destruct H as (p & -> & _). eauto.
Qed.

Lemma X28_witness :
  is_Some (eval (detectVendorConcentration frozen_clock tx_b ledger_30_of_100)
             (new_service frozen_clock)).
Proof.
  refine (proj2 (X28_context_flag_implies_detector frozen_clock frozen_clock
                   ledger_30_of_100 tx_b 70 None (new_service frozen_clock)
                   (new_service frozen_clock) _)).
  vm_compute. apply list_elem_of_singleton. reflexivity.
Defined.

(** At a share of exactly 30% the detector fires and the context lists
    nothing. *)
Lemma context_silent_at_30_percent :
  InsightsService.detectedPatterns
    (eval (InsightsService.buildImmuneContext frozen_clock ledger_30_of_100
             (tx_recipient tx_a) 30 None) (new_service frozen_clock)) = []
  ∧ is_Some (eval (detectVendorConcentration frozen_clock tx_a ledger_30_of_100)
               (new_service frozen_clock)).
Proof. split; [reflexivity | vm_compute; eauto]. Qed.

(** X29.  [buildImmuneContext] lists labels in the order micro-costs,
    concentration, convenience, never both the first and the last, so at most
    two; it gives one reference per label and leaves the memory as it is. *)
Theorem X29_context_labels
    (clock : nat → Z) (ledger : list Transaction) (recipient : string)
    (amount : float) (purpose : option string) (w : World) :
  let run := InsightsService.buildImmuneContext clock ledger recipient amount purpose in
  sublist (InsightsService.detectedPatterns (eval run w))
          ["recurring_micro_costs"; "vendor_concentration"; "convenience_bias"]
  ∧ ¬ ("recurring_micro_costs" ∈ InsightsService.detectedPatterns (eval run w)
       ∧ "convenience_bias" ∈ InsightsService.detectedPatterns (eval run w))
  ∧ length (InsightsService.detectedPatterns (eval run w)) ≤ 2
  ∧ length (InsightsService.memoryReferences (eval run w))
    = length (InsightsService.detectedPatterns (eval run w))
  ∧ memory (exec run w) = memory w.
Proof.
  cbv zeta.
  destruct (buildImmuneContext_result clock ledger recipient amount purpose w)
    as (b1 & b3 & Hpat & Hlen & Hb1 & Hb3).
  cbv zeta in Hpat, Hlen. rewrite Hlen, Hpat.
  set (vendor := JS.gtb _ 0 && _).
  assert (Hexcl : ¬ (b1 = true ∧ b3 = true)).
  { intros [E1 E3]. destruct (Hb1 E1) as [Hlow _]. specialize (Hb3 E3).
    unfold InsightsService.is_round_over_100 in Hb3.
    apply andb_prop in Hb3. destruct Hb3 as [_ Hhigh]. unfold JS.gtb in Hhigh.
    pose proof (ltb_trans _ _ _ Hhigh Hlow) as H. vm_compute in H. discriminate H. }
  split; [|split; [|split; [|split]]].
  - destruct b1, vendor, b3; cbn;
      repeat first [apply sublist_nil | apply sublist_skip | apply sublist_cons].
  - intros [H1 H3]. apply Hexcl. split.
    + destruct b1; [reflexivity|]. exfalso. revert H1.
      destruct vendor, b3; cbn; rewrite ?elem_of_cons, ?elem_of_nil;
        intuition discriminate.
    + destruct b3; [reflexivity|]. exfalso. revert H3.
      destruct b1, vendor; cbn; rewrite ?elem_of_cons, ?elem_of_nil;
        intuition discriminate.
  - destruct b1, b3; [exfalso; apply Hexcl; split; reflexivity|..];
      destruct vendor; cbn; lia.
  - reflexivity.
  - unfold InsightsService.buildImmuneContext.
    rewrite exec_bind, exec_ret.
    destruct ((amount <? 50)%float && _); [|reflexivity].
    rewrite exec_bind, exec_ret. apply memory_filterM.
    intros x w'. rewrite exec_bind, exec_ret. apply memory_Date_now.
Qed.

Lemma existsb_eqb_elem_of (x : string) (seen : list string) :
  existsb (String.eqb x) seen = true ↔ x ∈ seen.
Proof.
  induction seen as [|y seen IH]; cbn.
  - split; [discriminate | intros H; now apply elem_of_nil in H].
  - rewrite elem_of_cons, orb_true_iff, IH.
    destruct (String.eqb_spec x y); intuition congruence.
Qed.

Lemma elem_of_distinct (seen a : list string) (x : string) :
  x ∈ InsightsService.distinct seen a ↔ x ∈ a ∧ x ∉ seen.
Proof.
  revert seen. induction a as [|y a IH]; intros seen; cbn.
  - rewrite elem_of_nil. tauto.
  - destruct (existsb (String.eqb y) seen) eqn:E.
    + apply existsb_eqb_elem_of in E. rewrite IH, elem_of_cons.
      split; [tauto|]. intros [[->|H] Hx]; tauto.
    + assert (Hy : y ∉ seen).
      { intros H. apply existsb_eqb_elem_of in H. congruence. }
      rewrite elem_of_cons, IH, !elem_of_cons.
      destruct (decide (x = y)) as [->|Hne]; tauto.
Qed.

Lemma NoDup_distinct (seen a : list string) : NoDup (InsightsService.distinct seen a).
Proof.
  revert seen. induction a as [|y a IH]; intros seen; cbn; [apply NoDup_nil_2|].
  destruct (existsb (String.eqb y) seen); [apply IH|].
  apply NoDup_cons. split; [|apply IH].
  rewrite elem_of_distinct, elem_of_cons. tauto.
Qed.

Lemma elem_of_truthy_strings (a : list (option string)) (x : string) :
  x ∈ InsightsService.truthy_strings a ↔ x ≠ EmptyString ∧ Some x ∈ a.
Proof.
  induction a as [|[[|c r]|] a IH]; cbn.
  - rewrite !elem_of_nil. tauto.
  - rewrite IH, elem_of_cons. split; [tauto|].
    intros [Hx [H|H]]; [congruence | tauto].
  - rewrite !elem_of_cons, IH. split.
    + intros [->|[? ?]]; [split; [discriminate | now left] | tauto].
    + intros [Hx [H|H]]; [left; congruence | tauto].
  - rewrite IH, elem_of_cons. split; [tauto|].
    intros [Hx [H|H]]; [discriminate | tauto].
Qed.

Lemma elem_of_map_purpose (stated : string) (l : list Transaction) :
  Some stated ∈ map tx_purpose l ↔ ∃ t, t ∈ l ∧ tx_purpose t = Some stated.
Proof.
  induction l as [|t l IH]; cbn.
  - rewrite elem_of_nil. split; [tauto|]. intros (t & H & _). now apply elem_of_nil in H.
  - rewrite elem_of_cons, IH. split.
    + intros [H|(t' & Hin & Ht')]; [exists t | exists t'];
        rewrite elem_of_cons; auto.
    + intros (t' & Hin & Ht'). apply elem_of_cons in Hin.
      destruct Hin as [->|Hin]; [left; congruence | right; eauto].
Qed.

(** X30.  [buildImmuneContext] has no history for a counterparty exactly
    when the ledger has no transaction to it, and then lists at most
    convenience bias.  Otherwise the history counts the ledger's transactions
    to it, carries the time of the last of them, and lists each non-empty
    purpose they state once. *)
Theorem X30_context_recipient_history
    (clock : nat → Z) (ledger : list Transaction) (recipient : string)
    (amount : float) (purpose : option string) (w : World) :
  let ctx := eval (InsightsService.buildImmuneContext clock ledger recipient
                     amount purpose) w in
  match InsightsService.recipientHistory ctx with
  | None =>
      Forall (λ t, tx_recipient t ≠ recipient) ledger
      ∧ sublist (InsightsService.detectedPatterns ctx) ["convenience_bias"]
  | Some h =>
      history_of recipient ledger ≠ []
      ∧ InsightsService.totalTransactions h = length (history_of recipient ledger)
      ∧ InsightsService.lastTransaction h
        = tx_timestamp <$> last (history_of recipient ledger)
      ∧ NoDup (InsightsService.purposes h)
      ∧ ∀ stated, stated ∈ InsightsService.purposes h
          ↔ stated ≠ EmptyString
            ∧ ∃ t, t ∈ history_of recipient ledger ∧ tx_purpose t = Some stated
  end.
Proof.
  cbv zeta.
  destruct (buildImmuneContext_result clock ledger recipient amount purpose w)
    as (b1 & b3 & Hpat & _ & Hb1 & _).
  cbv zeta in Hpat. rewrite Hpat. clear Hpat.
  unfold InsightsService.buildImmuneContext. rewrite eval_bind, eval_ret.
  cbn [InsightsService.recipientHistory].
  fold (history_of recipient ledger) in *.
  destruct (history_of recipient ledger) as [|t0 history] eqn:Hhist;
    cbn [length Nat.ltb Nat.leb].
  - split; [now apply history_of_nil_inv|].
    destruct b1; [destruct (Hb1 eq_refl) as [_ H]; cbn in H; lia|].
    change (JS.sum_by tx_amount []) with 0%float.
    rewrite zero_share_not_above, andb_false_r. cbn.
    destruct b3; [apply sublist_skip | apply sublist_cons]; constructor.
  - change (0 <? S (length history))%nat with true.
    cbn [InsightsService.totalTransactions InsightsService.lastTransaction
         InsightsService.purposes].
    split; [discriminate|]. split; [reflexivity|]. split; [reflexivity|].
    split; [apply NoDup_distinct|].
    intros stated. rewrite elem_of_distinct, elem_of_truthy_strings, elem_of_map_purpose.
    split; [tauto|]. intros H. split; [exact H | apply not_elem_of_nil].
Qed.
